(** * component-loader: the HTML-to-module transformer of [src/index.js]

    A shallow embedding of the class [ProcessHtml] (its three passes [links],
    [domModule] and [scripts], the orchestrator [process] and the loader
    [entry]) together with the earlier build of the same loader kept at the
    repository root ([index.js], module [Legacy] below).

    Strings are [string] (sequences of bytes), JavaScript numbers that count
    lines and columns are [Z], a thrown exception is the [Throw] case of
    [result].  The libraries the loader calls (parse5, html-minifier, espree,
    Node's [url] and [path]) are not part of the repository: they are the
    fields of the class [Host]; they are taken on the runs in which they
    return (Node's [url.parse] and html-minifier throw on some inputs).
    dom5's tree walks and [remove], and source-map's generator with its
    [toJSON], are small enough to be written out. *)

From Stdlib Require Import String Ascii List ZArith Bool Lia.
Import ListNotations.

Open Scope Z_scope.
Open Scope string_scope.

(** ** JavaScript values used by the loader *)

Module JS.

(** The line feed written [\n] in the source's string literals. *)
Definition nl : string := String "010"%char "".

(** Truthiness of a string: only the empty string is falsy. *)
Definition truthy (s : string) : bool := negb (s =? "").

(** [x || d] where [x] is a string, [null] or [undefined]. *)
Definition or_else (x : option string) (d : string) : string :=
  match x with
  | Some s => if truthy s then s else d
  | None => d
  end.

(** [x || []] where [x] is an array or [undefined]. *)
Definition or_empty {A} (x : option (list A)) : list A :=
  match x with
  | Some l => l
  | None => []
  end.

(** [s.indexOf(sub)]: the position of the first occurrence, [-1] if none. *)
Definition indexOf (s sub : string) : Z :=
  match String.index 0 sub s with
  | Some n => Z.of_nat n
  | None => -1
  end.

(** [arr.indexOf(x)] on an array of strings (strict equality). *)
Fixpoint array_indexOf_from (i : Z) (arr : list string) (x : string) : Z :=
  match arr with
  | [] => -1
  | y :: arr' => if y =? x then i else array_indexOf_from (i + 1) arr' x
  end.

Definition array_indexOf (arr : list string) (x : string) : Z :=
  array_indexOf_from 0 arr x.

(** [arr.length]. *)
Definition length {A} (arr : list A) : Z := Z.of_nat (List.length arr).

(** [s.replace(/'/g, "\\'")]: a backslash before every single quote. *)
Fixpoint escape_quotes (s : string) : string :=
  match s with
  | EmptyString => EmptyString
  | String c s' =>
      if Ascii.eqb c "'"%char
      then String "\"%char (String "'"%char (escape_quotes s'))
      else String c (escape_quotes s')
  end.

(** [toLowerCase] on the ASCII letters (tag names are ASCII). *)
Definition lower_ascii (c : ascii) : ascii :=
  let n := nat_of_ascii c in
  if (Nat.leb 65 n && Nat.leb n 90)%bool then ascii_of_nat (n + 32) else c.

Fixpoint toLowerCase (s : string) : string :=
  match s with
  | EmptyString => EmptyString
  | String c s' => String (lower_ascii c) (toLowerCase s')
  end.

(** What can be thrown while a file is transformed. *)
Inductive error : Type :=
| TypeError                      (* a property read on [undefined] *)
| SyntaxError (message : string) (* raised by the tokenizer *).

Inductive result (A : Type) : Type :=
| Ok (a : A)
| Throw (e : error).

Arguments Ok {A} a.
Arguments Throw {A} e.

Definition bind {A B} (r : result A) (k : A -> result B) : result B :=
  match r with
  | Ok a => k a
  | Throw e => Throw e
  end.

(** Reading a property of something that may be [undefined]. *)
Definition deref {A} (x : option A) : result A :=
  match x with
  | Some a => Ok a
  | None => Throw TypeError
  end.

(** [arr.forEach] with a body that may throw, threading the variables the
    body assigns. *)
Fixpoint forEach {S A} (body : S -> A -> result S) (arr : list A) (s : S)
  : result S :=
  match arr with
  | [] => Ok s
  | a :: arr' => bind (body s a) (forEach body arr')
  end.

End JS.

Import JS.

Notation "x <- r ;; k" := (JS.bind r (fun x => k))
  (at level 61, r at next level, right associativity).

(** ** The parse5 tree, as dom5 walks it *)

Record attr : Type := { attr_name : string; attr_value : string }.

(** [line] and [col] of a [__location] record. *)
Record location : Type := { line : Z; col : Z }.

(** The [__location] of an element: its own [line] and [col], and the
    locations of its start and end tags ([endTag] is missing when the source
    never closes the element). *)
Record element_location : Type := {
  el_line : Z;
  el_col : Z;
  startTag : option location;
  endTag : option location
}.

#[local] Set Warnings "-register-all".

Inductive node : Type :=
| Document (childNodes : list node)
| Element (tagName : string) (attrs : list attr)
          (__location : option element_location) (childNodes : list node)
| TextNode (value : string) (__location : option location)
| CommentNode (data : string) (__location : option location).

Definition childNodes_of (n : node) : list node :=
  match n with
  | Document kids => kids
  | Element _ _ _ kids => kids
  | TextNode _ _ | CommentNode _ _ => []
  end.

(** [n.__location] restricted to the two fields every kind of node has. *)
Definition location_of (n : node) : option location :=
  match n with
  | Document _ => None
  | Element _ _ l _ =>
      match l with
      | Some el => Some {| line := el_line el; col := el_col el |}
      | None => None
      end
  | TextNode _ l => l
  | CommentNode _ l => l
  end.

Definition element_location_of (n : node) : option element_location :=
  match n with
  | Element _ _ l _ => l
  | _ => None
  end.

Module dom5.

(** [getAttribute(node, name)]: the value of the first attribute of that
    name, [null] when there is none. *)
Fixpoint find_attr (l : list attr) (name : string) : option string :=
  match l with
  | [] => None
  | a :: l' => if attr_name a =? name then Some (attr_value a) else find_attr l' name
  end.

Definition getAttribute (n : node) (name : string) : option string :=
  match n with
  | Element _ l _ _ => find_attr l name
  | _ => None
  end.

(** [predicates.hasTagName(name)]: an element whose tag is [name], compared
    in lower case. *)
Definition hasTagName (name : string) (n : node) : bool :=
  match n with
  | Element t _ _ _ => toLowerCase t =? toLowerCase name
  | _ => false
  end.

(** [queryAll(node, pred)]: every match, the node itself first, then its
    children from left to right, each with its own subtree (nodeWalkAll). *)
Fixpoint queryAll (n : node) (pred : node -> bool) : list node :=
  let below :=
    match n with
    | Document kids => flat_map (fun k => queryAll k pred) kids
    | Element _ _ _ kids => flat_map (fun k => queryAll k pred) kids
    | TextNode _ _ | CommentNode _ _ => []
    end in
  if pred n then n :: below else below.

(** The first result of [f] over an array, as a [for] loop with [break]. *)
Fixpoint first_match {A B} (f : A -> option B) (arr : list A) : option B :=
  match arr with
  | [] => None
  | a :: arr' =>
      match f a with
      | Some b => Some b
      | None => first_match f arr'
      end
  end.

(** [query(node, pred)]: the first match in the same order (nodeWalk). *)
Fixpoint query (n : node) (pred : node -> bool) : option node :=
  if pred n then Some n
  else
    match n with
    | Document kids => first_match (fun k => query k pred) kids
    | Element _ _ _ kids => first_match (fun k => query k pred) kids
    | TextNode _ _ | CommentNode _ _ => None
    end.

End dom5.

Import dom5.

Definition domPred : node -> bool := hasTagName "dom-module".
Definition linkPred : node -> bool := hasTagName "link".
Definition scriptsPred : node -> bool := hasTagName "script".

(** ** Tokens and source maps *)

Module espree.

Record position : Type := { line : Z; column : Z }.

Record SourceLocation : Type := { start : position; end_ : position }.

(** A token of [espree.tokenize(text, { loc: true, ... })]. *)
Record token : Type := {
  type : string;
  value : string;
  loc : option SourceLocation
}.

End espree.

Module sourceMap.

Record position : Type := { line : Z; column : Z }.

(** The argument of [addMapping]; [name] is set for identifiers only. *)
Record mapping : Type := {
  original : position;
  generated : position;
  source : string;
  name : option string
}.

(** What a [SourceMapGenerator] has accumulated: the mappings in the order
    they were added and the contents set by source file. *)
Record SourceMapGenerator : Type := {
  mappings : list mapping;
  sourcesContents : list (string * string)
}.

Definition new_SourceMapGenerator : SourceMapGenerator :=
  {| mappings := []; sourcesContents := [] |}.

(** [addMapping] appends.  Its argument check throws [Invalid mapping] for
    a line that is not positive, a negative column or an empty source; the
    calls modelled are those that pass it, as all calls of a run with
    tokenizer positions (lines from 1, columns from 0) and a line offset
    that is not negative do. *)
Definition addMapping (g : SourceMapGenerator) (m : mapping) : SourceMapGenerator :=
  {| mappings := (mappings g ++ [m])%list; sourcesContents := sourcesContents g |}.

Definition setSourceContent (g : SourceMapGenerator) (file text : string)
  : SourceMapGenerator :=
  {| mappings := mappings g;
     sourcesContents :=
       (file, text) :: filter (fun p => negb (fst p =? file)) (sourcesContents g) |}.

(** The map [toJSON] returns: [sources] and [names] in the order of first
    use, the mappings its [mappings] string lists, in the order of the
    string, and [sourcesContent] with one entry per source. *)
Record RawSourceMap : Type := {
  sources : list string;
  names : list string;
  raw_mappings : list mapping;
  sourcesContent : list (option string)
}.

(** An array set: every string once, in the order of first appearance. *)
Fixpoint distinct (l : list string) : list string :=
  match l with
  | [] => []
  | x :: l' => x :: filter (fun y => negb (y =? x)) (distinct l')
  end.

(** [util.strcmp] on names, a missing name ([null]) after every string.
    It only decides between two mappings with the same positions. *)
Definition strcmp (a b : option string) : comparison :=
  match a, b with
  | None, None => Eq
  | None, Some _ => Gt
  | Some _, None => Lt
  | Some x, Some y => String.compare x y
  end.

(** The first comparison that is not a tie. *)
Definition or_then (c d : comparison) : comparison :=
  match c with
  | Eq => d
  | _ => c
  end.

(** [util.compareByGeneratedPositionsInflated]: generated line, generated
    column, source, original line, original column, name. *)
Definition compareByGeneratedPositionsInflated (a b : mapping) : comparison :=
  or_then (Z.compare (line (generated a)) (line (generated b)))
  (or_then (Z.compare (column (generated a)) (column (generated b)))
  (or_then (String.compare (source a) (source b))
  (or_then (Z.compare (line (original a)) (line (original b)))
  (or_then (Z.compare (column (original a)) (column (original b)))
           (strcmp (name a) (name b)))))).

(** The mappings sorted by that comparison, as [toJSON] reads them. *)
Fixpoint insert (m : mapping) (l : list mapping) : list mapping :=
  match l with
  | [] => [m]
  | x :: l' =>
      match compareByGeneratedPositionsInflated m x with
      | Lt => m :: l
      | _ => x :: insert m l'
      end
  end.

Definition sorted (l : list mapping) : list mapping :=
  fold_left (fun acc m => insert m acc) l [].

(** The serializer skips a mapping that equals the one before it. *)
Fixpoint without_repeats (l : list mapping) : list mapping :=
  match l with
  | [] => []
  | m :: l' =>
      match l' with
      | [] => [m]
      | x :: _ =>
          match compareByGeneratedPositionsInflated m x with
          | Eq => without_repeats l'
          | _ => m :: without_repeats l'
          end
      end
  end.

Definition names_of (l : list mapping) : list string :=
  flat_map (fun m => match name m with Some n => [n] | None => [] end) l.

Definition content_of (g : SourceMapGenerator) (file : string) : option string :=
  match find (fun p => fst p =? file) (sourcesContents g) with
  | Some p => Some (snd p)
  | None => None
  end.

(** [toJSON]: a source is listed once a mapping names it, and only listed
    sources get their content embedded. *)
Definition toJSON (g : SourceMapGenerator) : RawSourceMap :=
  let sources := distinct (map source (mappings g)) in
  {| sources := sources;
     names := distinct (names_of (mappings g));
     raw_mappings := without_repeats (sorted (mappings g));
     sourcesContent := map (content_of g) sources |}.

End sourceMap.

(** ** The collaborators *)

(** The result of Node's [url.parse]: the two fields the loader reads.
    [protocol] is [null] or a string, [slashes] is [true] or [null]. *)
Record Url : Type := { protocol : option string; slashes : bool }.

Class Host : Type := {
  (** [parse5.parse(content, { locationInfo: true })] followed by
      [removeFakeRootElements]: the children of the resulting document. *)
  parse5_parse : string -> list node;
  (** [parse5.serialize(node)]: the markup of the node's children. *)
  parse5_serialize : node -> string;
  (** [minify(html, { collapseWhitespace, conservativeCollapse, minifyCSS,
      removeComments })], on the markup it accepts (it throws a parse error
      on some). *)
  minify : string -> string;
  (** [espree.tokenize(text, { loc: true, ecmaVersion: 2017, sourceType:
      'module' })], which throws on a syntax error. *)
  espree_tokenize : string -> result (list espree.token);
  (** [url.parse(src)], on the values it accepts (it throws on some). *)
  url_parse : string -> Url;
  osPath_join : string -> string -> string;
  osPath_dirname : string -> string
}.

(** ** The loader's data *)

(** The options the loader reads; each may be missing. *)
Record Options : Type := {
  ignoreLinks : option (list string);
  ignoreLinksFromPartialMatches : option (list string);
  ignorePathReWrite : option (list string)
}.

Definition no_options : Options :=
  {| ignoreLinks := None; ignoreLinksFromPartialMatches := None; ignorePathReWrite := None |}.

(** The webpack loader context: the options of the request, if any, and the
    path of the file being loaded. *)
Record Loader : Type := {
  loader_options : option Options;
  resourcePath : string
}.

Record ProcessHtml : Type := {
  content : string;
  options : Options;
  currentFilePath : string
}.

(** [constructor(content, loader)]. *)
Definition new_ProcessHtml (content : string) (loader : Loader) : ProcessHtml :=
  {| content := content;
     options := match loader_options loader with Some o => o | None => no_options end;
     currentFilePath := resourcePath loader |}.

(** [{ source, lineCount }], returned by [links] and [domModule]. *)
Record Fragment : Type := { source : string; lineCount : Z }.

(** [{ source, sourceMap }], returned by [scripts] and [process]; [sourceMap]
    is only set when a generator was created. *)
Record RetVal : Type := {
  ret_source : string;
  ret_sourceMap : option sourceMap.RawSourceMap
}.

(** The variables [scripts] assigns in its loop. *)
Record ScriptsState : Type := {
  st_source : string;
  st_lineOffset : Z;
  st_sourceMapGenerator : option sourceMap.SourceMapGenerator
}.

(** [`\nimport '${path}';\n`]. *)
Definition import_statement (path : string) : string :=
  nl ++ "import '" ++ path ++ "';" ++ nl.

Section Transformer.

Context {host : Host}.

(** *** [links] *)

Definition link_path (this : ProcessHtml) (href : string) : string :=
  let ignorePathReWrites := or_empty (ignorePathReWrite (options this)) in
  let checkIgnorePaths :=
    filter (fun ignorePath => (indexOf href ignorePath >=? 0)%Z) ignorePathReWrites in
  if (JS.length checkIgnorePaths =? 0)%Z
  then osPath_join (osPath_dirname (currentFilePath this)) href
  else href.

(** The body of [links.forEach] in [links], on the pair of variables
    [source] and [lineCount]. *)
Definition links_body (this : ProcessHtml) (acc : Fragment) (linkNode : node) : Fragment :=
  let ignoreLinks := or_empty (ignoreLinks (options this)) in
  let ignoreLinksFromPartialMatches :=
    or_empty (ignoreLinksFromPartialMatches (options this)) in
  let href := or_else (getAttribute linkNode "href") "" in
  if truthy href then
    let path := link_path this href in
    let ignoredFromPartial :=
      filter (fun partial => (indexOf href partial >=? 0)%Z) ignoreLinksFromPartialMatches in
    if ((array_indexOf ignoreLinks href <? 0) && (JS.length ignoredFromPartial =? 0))%Z
    then {| source := source acc ++ import_statement path;
            lineCount := lineCount acc + 2 |}
    else acc
  else acc.

Definition links (this : ProcessHtml) : Fragment :=
  let doc := Document (parse5_parse (content this)) in
  let links := queryAll doc linkPred in
  fold_left (links_body this) links {| source := ""; lineCount := 0 |}.

(** *** [domModule] *)

(** The test both [domModule] and [scripts] make on a script's [src]:
    [!parseSrc.protocol || !parseSrc.slashes]. *)
Definition not_absolute (src : string) : bool :=
  let parseSrc := url_parse src in
  negb (truthy (or_else (protocol parseSrc) "")) || negb (slashes parseSrc).

(** The body of [scripts.forEach] in [domModule]: whether [remove] is
    called on the script. *)
Definition removes_script (scriptNode : node) : bool :=
  let src := or_else (getAttribute scriptNode "src") "" in
  if truthy src then not_absolute src else true.

(** dom5's [remove(node)] takes a node out of its parent's [childNodes].
    Calling it on every node of a [queryAll] result that satisfies [doomed]
    leaves each node of the tree with its doomed children gone, at every
    depth: the list was collected before the first removal, so a doomed
    node below another doomed node is still taken out of its own parent. *)
Fixpoint removeAll (doomed : node -> bool) (n : node) : node :=
  let keep (k : node) : list node :=
    if doomed k then [] else [removeAll doomed k] in
  match n with
  | Document kids => Document (flat_map keep kids)
  | Element t a l kids => Element t a l (flat_map keep kids)
  | TextNode _ _ | CommentNode _ _ => n
  end.

(** The tree after [scripts.forEach] of [domModule]. *)
Definition without_scripts (n : node) : node :=
  removeAll (fun k => scriptsPred k && removes_script k) n.

(** The tree after [links.forEach] of [domModule], for a node that
    [queryAll(doc, linkPred)] reaches. *)
Definition without_links (n : node) : node :=
  removeAll linkPred n.

(** [domModule.parentNode] for [domModule = query(doc, domPred)], searched
    below [parent] in the order of [query].  The flag tells whether the
    parent is, or lies below, a script that [scripts.forEach] removes: such
    a parent is no longer reachable from [doc] when the links are queried,
    so it keeps its links. *)
Fixpoint parentOfFirst (unreachable : bool) (parent : node) : option (node * bool) :=
  let visit (k : node) : option (node * bool) :=
    if domPred k then Some (parent, unreachable)
    else parentOfFirst (unreachable || (scriptsPred k && removes_script k)) k in
  match parent with
  | Document kids => first_match visit kids
  | Element _ _ _ kids => first_match visit kids
  | TextNode _ _ | CommentNode _ _ => None
  end.

(** [html], the node that [domModule] serializes, in the state the two
    loops leave it in. *)
Definition domModule_html (doc : node) : node :=
  match parentOfFirst false doc with
  | Some (parentNode, unreachable) =>
      if unreachable then without_scripts parentNode
      else without_links (without_scripts parentNode)
  | None => without_links (without_scripts doc)
  end.

Definition register_require : string :=
  "const RegisterHtmlTemplate = require('polymer-webpack-loader/register-html-template');".

Definition domModule (this : ProcessHtml) : Fragment :=
  let doc := Document (parse5_parse (content this)) in
  let domModule := query doc domPred in
  let html := domModule_html doc in
  let minimized := minify (parse5_serialize html) in
  if truthy minimized then
    match domModule with
    | Some _ =>
        {| source := nl ++ register_require ++ nl
                     ++ "RegisterHtmlTemplate.register('" ++ escape_quotes minimized ++ "');" ++ nl;
           lineCount := 3 |}
    | None =>
        {| source := nl ++ register_require ++ nl
                     ++ "RegisterHtmlTemplate.toBody('" ++ escape_quotes minimized ++ "');" ++ nl;
           lineCount := 3 |}
    end
  else {| source := ""; lineCount := 0 |}.

(** *** [scripts] *)

(** The body of [tokens.forEach]: the mapping added for one token. *)
Definition token_mapping (this : ProcessHtml)
           (currentScriptLineOffset firstLineCharOffset lineOffset : Z)
           (tok : espree.token) (l : espree.SourceLocation) : sourceMap.mapping :=
  let start := espree.start l in
  {| sourceMap.original :=
       {| sourceMap.line := espree.line start + currentScriptLineOffset;
          sourceMap.column :=
            espree.column start
            + (if (espree.line start =? 1)%Z then firstLineCharOffset else 0) |};
     sourceMap.generated :=
       {| sourceMap.line := espree.line start + lineOffset;
          sourceMap.column := espree.column start |};
     sourceMap.source := currentFilePath this;
     sourceMap.name :=
       if espree.type tok =? "Identifier" then Some (espree.value tok) else None |}.

Definition tokens_body (this : ProcessHtml)
           (currentScriptLineOffset firstLineCharOffset lineOffset : Z)
           (g : sourceMap.SourceMapGenerator) (tok : espree.token)
  : sourceMap.SourceMapGenerator :=
  match espree.loc tok with
  | None => g
  | Some l =>
      sourceMap.addMapping g
        (token_mapping this currentScriptLineOffset firstLineCharOffset lineOffset tok l)
  end.

(** The body of [scripts.forEach] in [scripts]. *)
Definition scripts_body (this : ProcessHtml) (st : ScriptsState) (scriptNode : node)
  : result ScriptsState :=
  let src := or_else (getAttribute scriptNode "src") "" in
  if truthy src then
    if not_absolute src then
      let path := osPath_join (osPath_dirname (currentFilePath this)) src in
      Ok {| st_source := st_source st ++ import_statement path;
            st_lineOffset := st_lineOffset st + 2;
            st_sourceMapGenerator := st_sourceMapGenerator st |}
    else Ok st
  else
    let scriptContents := parse5_serialize scriptNode in
    let sourceMapGenerator :=
      match st_sourceMapGenerator st with
      | Some g => g
      | None => sourceMap.new_SourceMapGenerator
      end in
    tokens <- espree_tokenize scriptContents ;;
    child <- deref (nth_error (childNodes_of scriptNode) 0) ;;
    childLocation <- deref (location_of child) ;;
    let currentScriptLineOffset := line childLocation - 1 in
    let firstLineCharOffset := col childLocation in
    let sourceMapGenerator :=
      fold_left
        (tokens_body this currentScriptLineOffset firstLineCharOffset (st_lineOffset st))
        tokens sourceMapGenerator in
    let source := st_source st ++ nl ++ scriptContents ++ nl in
    scriptLocation <- deref (element_location_of scriptNode) ;;
    endTag <- deref (endTag scriptLocation) ;;
    startTag <- deref (startTag scriptLocation) ;;
    Ok {| st_source := source;
          st_lineOffset := st_lineOffset st + (2 + (line endTag - line startTag));
          st_sourceMapGenerator := Some sourceMapGenerator |}.

Definition scripts (this : ProcessHtml) (initialSource : string) (initialLineOffset : Z)
  : result RetVal :=
  let doc := Document (parse5_parse (content this)) in
  let scripts := queryAll doc scriptsPred in
  st <- forEach (scripts_body this) scripts
          {| st_source := initialSource;
             st_lineOffset := initialLineOffset;
             st_sourceMapGenerator := None |} ;;
  match st_sourceMapGenerator st with
  | Some sourceMapGenerator =>
      Ok {| ret_source := st_source st;
            ret_sourceMap :=
              Some (sourceMap.toJSON
                      (sourceMap.setSourceContent sourceMapGenerator
                         (currentFilePath this) (content this))) |}
  | None => Ok {| ret_source := st_source st; ret_sourceMap := None |}
  end.

(** *** [process] and the loader function *)

Definition process (this : ProcessHtml) : result RetVal :=
  let links := links this in
  let doms := domModule this in
  scripts this (source links ++ source doms) (lineCount links + lineCount doms).

(** [entry(content, map)]: the arguments of [this.callback] after the
    leading [null]; an exception of [process] leaves the function. *)
Definition entry (loader : Loader) (content : string)
  : result (string * option sourceMap.RawSourceMap) :=
  results <- process (new_ProcessHtml content loader) ;;
  Ok (ret_source results, ret_sourceMap results).

End Transformer.

(** ** The earlier build, [index.js] at the repository root

    Same three passes, returning plain text: no line counts, no source map,
    no [ignoreLinksFromPartialMatches]. *)

Module Legacy.
Section Transformer.

Context {host : Host}.

Definition register_require : string :=
  "const RegisterHtmlTemplate = require('component-loader/register-html-template');".

Definition domModule (this : ProcessHtml) : string :=
  let doc := Document (parse5_parse (content this)) in
  let domModule := query doc domPred in
  let html := domModule_html doc in
  let minimized := minify (parse5_serialize html) in
  if truthy minimized then
    match domModule with
    | Some _ =>
        nl ++ register_require ++ nl
        ++ "RegisterHtmlTemplate.register('" ++ escape_quotes minimized ++ "');" ++ nl
    | None =>
        nl ++ register_require ++ nl
        ++ "RegisterHtmlTemplate.toBody('" ++ escape_quotes minimized ++ "');" ++ nl
    end
  else "".

Definition links_body (this : ProcessHtml) (returnValue : string) (linkNode : node) : string :=
  let ignoreLinks := or_empty (ignoreLinks (options this)) in
  let href := or_else (getAttribute linkNode "href") "" in
  if truthy href then
    let path := link_path this href in
    if (array_indexOf ignoreLinks href <? 0)%Z
    then returnValue ++ import_statement path
    else returnValue
  else returnValue.

Definition links (this : ProcessHtml) : string :=
  let doc := Document (parse5_parse (content this)) in
  fold_left (links_body this) (queryAll doc linkPred) "".

Definition scripts_body (this : ProcessHtml) (returnValue : string) (scriptNode : node)
  : string :=
  let src := or_else (getAttribute scriptNode "src") "" in
  if truthy src then
    if not_absolute src then
      let path := osPath_join (osPath_dirname (currentFilePath this)) src in
      returnValue ++ import_statement path
    else returnValue
  else returnValue ++ nl ++ parse5_serialize scriptNode ++ nl.

Definition scripts (this : ProcessHtml) : string :=
  let doc := Document (parse5_parse (content this)) in
  fold_left (scripts_body this) (queryAll doc scriptsPred) "".

Definition process (this : ProcessHtml) : string :=
  let links := links this in
  let doms := domModule this in
  let scripts := scripts this in
  links ++ doms ++ scripts.

(** [module.exports = function(content)]: the text handed back to webpack. *)
Definition entry (loader : Loader) (content : string) : string :=
  process (new_ProcessHtml content loader).

End Transformer.
End Legacy.

(** ** A concrete host for worked examples

    Enough of each collaborator to run the loader on small documents given
    as trees: markup without characters that need escaping, paths without
    [.] or [..] segments, URLs with an optional scheme, and a tokenizer
    defined on the scripts of the examples. *)

Module Fixture.

Definition void_element (t : string) : bool :=
  existsb (String.eqb (toLowerCase t)) ["link"; "meta"; "br"; "img"; "input"; "hr"].

Definition dquote : string := String "034"%char "".

Definition show_attr (a : attr) : string :=
  " " ++ attr_name a ++ "=" ++ dquote ++ attr_value a ++ dquote.

Fixpoint outer (n : node) : string :=
  match n with
  | Document kids => String.concat "" (map outer kids)
  | Element t a _ kids =>
      "<" ++ t ++ String.concat "" (map show_attr a) ++ ">"
      ++ (if void_element t then ""
          else String.concat "" (map outer kids) ++ "</" ++ t ++ ">")
  | TextNode v _ => v
  | CommentNode d _ => "<!--" ++ d ++ "-->"
  end.

Definition serialize (n : node) : string :=
  String.concat "" (map outer (childNodes_of n)).

(** Characters of a URL scheme. *)
Definition scheme_char (c : ascii) : bool :=
  let n := nat_of_ascii (lower_ascii c) in
  ((Nat.leb 97 n && Nat.leb n 122) || (Nat.leb 48 n && Nat.leb n 57)
   || Nat.eqb n 43 || Nat.eqb n 45 || Nat.eqb n 46)%bool.

(** Splits [s] after a leading run of scheme characters closed by a colon. *)
Fixpoint scheme (s : string) : option (string * string) :=
  match s with
  | EmptyString => None
  | String c s' =>
      if Ascii.eqb c ":"%char then Some (":", s')
      else if scheme_char c then
        match scheme s' with
        | Some (p, rest) => Some (String (lower_ascii c) p, rest)
        | None => None
        end
      else None
  end.

Definition simple_url (s : string) : Url :=
  match scheme s with
  | Some (p, rest) =>
      if p =? ":" then {| protocol := None; slashes := false |}
      else {| protocol := Some p; slashes := String.prefix "//" rest |}
  | None => {| protocol := None; slashes := false |}
  end.

(** Everything before the last slash. *)
Fixpoint dirname (s : string) : string :=
  match s with
  | EmptyString => EmptyString
  | String c s' =>
      match String.index 0 "/" s' with
      | Some _ => String c (dirname s')
      | None => EmptyString
      end
  end.

Definition join (a b : string) : string := a ++ "/" ++ b.

Definition tok (ty v : string) (l c : Z) : espree.token :=
  {| espree.type := ty;
     espree.value := v;
     espree.loc :=
       Some {| espree.start := {| espree.line := l; espree.column := c |};
               espree.end_ :=
                 {| espree.line := l;
                    espree.column := c + Z.of_nat (String.length v) |} |} |}.

(** The tokens of [var a=1;]. *)
Definition var_tokens : list espree.token :=
  [tok "Keyword" "var" 1 0; tok "Identifier" "a" 1 4; tok "Punctuator" "=" 1 5;
   tok "Numeric" "1" 1 6; tok "Punctuator" ";" 1 7].

Definition tokenize (text : string) : result (list espree.token) :=
  if text =? "" then Ok []
  else if text =? "// nothing yet" then Ok []
  else if text =? "var a=1;" then Ok var_tokens
  else Throw (SyntaxError "Unexpected token").

(** The host whose parser answers [doc] for every text. *)
Definition host (doc : list node) : Host :=
  {| parse5_parse := fun _ => doc;
     parse5_serialize := serialize;
     minify := fun html => html;
     espree_tokenize := tokenize;
     url_parse := simple_url;
     osPath_join := join;
     osPath_dirname := dirname |}.

Definition at_ (l c : Z) : option location := Some {| line := l; col := c |}.

Definition elem_at (l c : Z) (close : option location) : option element_location :=
  Some {| el_line := l; el_col := c; startTag := at_ l c; endTag := close |}.

(** [<link rel="import" href="a.html"><dom-module id="x"><script>var
    a=1;</script></dom-module>] on one line. *)
Definition var_script : node :=
  Element "script" [] (elem_at 1 53 (at_ 1 69)) [TextNode "var a=1;" (at_ 1 61)].

Definition component_doc : list node :=
  [ Element "link" [ {| attr_name := "rel"; attr_value := "import" |};
                     {| attr_name := "href"; attr_value := "a.html" |} ]
            (elem_at 1 1 None) [];
    Element "dom-module" [ {| attr_name := "id"; attr_value := "x" |} ]
            (elem_at 1 34 (at_ 1 78)) [ var_script ] ].

(** [<script></script>]: an inline script without text. *)
Definition empty_script : node :=
  Element "script" [] (elem_at 1 1 (at_ 1 9)) [].

Definition empty_script_doc : list node := [ empty_script ].

(** [<script>// nothing yet</script>]: an inline script without token. *)
Definition comment_script : node :=
  Element "script" [] (elem_at 1 1 (at_ 1 23)) [TextNode "// nothing yet" (at_ 1 9)].

Definition comment_script_doc : list node := [ comment_script ].

(** [<div><dom-module id="x"></dom-module></div><script
    src="https://cdn.example.com/a.js"></script>]: a script from a CDN
    next to the element that wraps the component. *)
Definition cdn_script : node :=
  Element "script" [ {| attr_name := "src"; attr_value := "https://cdn.example.com/a.js" |} ]
          (elem_at 1 44 (at_ 1 87)) [].

Definition wrapped_component_doc : list node :=
  [ Element "div" [] (elem_at 1 1 (at_ 1 38))
      [ Element "dom-module" [ {| attr_name := "id"; attr_value := "x" |} ]
                (elem_at 1 6 (at_ 1 25)) [] ];
    cdn_script ].

(** [<dom-module id="x"><script
    src="https://cdn.example.com/a.js"></script></dom-module>]: the same
    script inside the component, which lies in the document. *)
Definition cdn_component_doc : list node :=
  [ Element "dom-module" [ {| attr_name := "id"; attr_value := "x" |} ]
            (elem_at 1 1 (at_ 1 72)) [ cdn_script ] ].

(** [<svg><script><link rel="import" href="a.html"/><dom-module
    id="x"></dom-module></script></svg>]: inside [svg] a script is an
    ordinary element, here with a link and the component as children. *)
Definition svg_link : node :=
  Element "link" [ {| attr_name := "rel"; attr_value := "import" |};
                   {| attr_name := "href"; attr_value := "a.html" |} ]
          (elem_at 1 14 None) [].

Definition svg_script : node :=
  Element "script" [] (elem_at 1 6 (at_ 1 80))
          [ svg_link;
            Element "dom-module" [ {| attr_name := "id"; attr_value := "x" |} ]
                    (elem_at 1 48 (at_ 1 67)) [] ].

Definition svg_script_doc : list node :=
  [ Element "svg" [] (elem_at 1 1 (at_ 1 89)) [ svg_script ] ].

(** [<script src="">var a=1;</script>] and the same without the attribute. *)
Definition empty_src_script : node :=
  Element "script" [ {| attr_name := "src"; attr_value := "" |} ]
          (elem_at 1 1 (at_ 1 24)) [TextNode "var a=1;" (at_ 1 16)].

(** Options that ignore every link whose [href] mentions [a.]. *)
Definition ignore_a : Options :=
  {| ignoreLinks := None;
     ignoreLinksFromPartialMatches := Some ["a."];
     ignorePathReWrite := None |}.

(** The state [scripts] starts from on an empty module. *)
Definition fresh : ScriptsState :=
  {| st_source := ""; st_lineOffset := 0; st_sourceMapGenerator := None |}.

(** The state of [scripts] after five generated lines. *)
Definition after_five_lines : ScriptsState :=
  {| st_source := ""; st_lineOffset := 5; st_sourceMapGenerator := None |}.

Definition webpack (path : string) : Loader :=
  {| loader_options := None; resourcePath := path |}.

Definition this_at (path : string) (o : Options) : ProcessHtml :=
  {| content := "<html>"; options := o; currentFilePath := path |}.

End Fixture.


(** ** Vocabulary of the specification *)

(** [sub] occurs somewhere in [s]. *)
Definition contains (sub s : string) : Prop :=
  exists pre post, s = pre ++ sub ++ post.

(** The number of line feeds in a text: the lines it adds to a module. *)
Fixpoint line_feeds (s : string) : Z :=
  match s with
  | EmptyString => 0
  | String c s' => (if Ascii.eqb c "010"%char then 1 else 0) + line_feeds s'
  end.

(** Every node strictly below [n], in document order. *)
Definition descendants (n : node) : list node :=
  flat_map (fun k => queryAll k (fun _ => true)) (childNodes_of n).

(** [s] is [root] or lies below it. *)
Definition occurs (s root : node) : Prop :=
  In s (queryAll root (fun _ => true)).

(** All children are text, as the parser leaves the content of an HTML
    script (a script inside [svg] or [math] can have element children). *)
Definition text_only (n : node) : Prop :=
  forall k, In k (childNodes_of n) -> exists v l, k = TextNode v l.

(** What the search for the component's parent below [n] may answer, when
    started with the flag [u]: nothing when [query] finds no component below
    [n]; otherwise a node [p] of the tree that has the component found by
    [query] among its children, with the flag unchanged unless some script
    of the tree has a child that is not text. *)
Definition locates_parent (u : bool) (n : node) (kids : list node)
           (r : option (node * bool)) : Prop :=
  match r with
  | None => first_match (fun k => query k domPred) kids = None
  | Some (p, u') =>
      exists d,
        first_match (fun k => query k domPred) kids = Some d
        /\ In d (childNodes_of p) /\ occurs p n
        /\ (u' = u \/ exists s, occurs s n /\ scriptsPred s = true /\ ~ text_only s)
  end.

(** The tokens that carry location info, each with its location. *)
Definition located (tokens : list espree.token)
  : list (espree.token * espree.SourceLocation) :=
  flat_map (fun t => match espree.loc t with
                     | Some l => [(t, l)]
                     | None => []
                     end) tokens.

(** The mapping the specification asks for a token at [l], for a script
    whose content starts at [content] in the original file, when
    [lineOffset] lines have been generated before it. *)
Definition maps_token (file : string) (content : location) (lineOffset : Z)
           (tl : espree.token * espree.SourceLocation) (m : sourceMap.mapping) : Prop :=
  let t := fst tl in
  let s := espree.start (snd tl) in
  sourceMap.line (sourceMap.original m) = espree.line s + (line content - 1)
  /\ (espree.line s = 1 ->
      sourceMap.column (sourceMap.original m) = espree.column s + col content)
  /\ (espree.line s <> 1 ->
      sourceMap.column (sourceMap.original m) = espree.column s)
  /\ sourceMap.line (sourceMap.generated m) = espree.line s + lineOffset
  /\ sourceMap.column (sourceMap.generated m) = espree.column s
  /\ sourceMap.source m = file
  /\ (espree.type t = "Identifier" -> sourceMap.name m = Some (espree.value t))
  /\ (espree.type t <> "Identifier" -> sourceMap.name m = None).

(** The generator a script starts from: the one at hand, or a new one. *)
Definition generator_of (st : ScriptsState) : sourceMap.SourceMapGenerator :=
  match st_sourceMapGenerator st with
  | Some g => g
  | None => sourceMap.new_SourceMapGenerator
  end.

(** A map with every generated line moved down by [d] lines. *)
Definition shift_mapping (d : Z) (m : sourceMap.mapping) : sourceMap.mapping :=
  {| sourceMap.original := sourceMap.original m;
     sourceMap.generated :=
       {| sourceMap.line := sourceMap.line (sourceMap.generated m) + d;
          sourceMap.column := sourceMap.column (sourceMap.generated m) |};
     sourceMap.source := sourceMap.source m;
     sourceMap.name := sourceMap.name m |}.

Definition shift_generated (d : Z) (g : sourceMap.SourceMapGenerator)
  : sourceMap.SourceMapGenerator :=
  {| sourceMap.mappings := map (shift_mapping d) (sourceMap.mappings g);
     sourceMap.sourcesContents := sourceMap.sourcesContents g |}.

Definition shift_map (d : Z) (m : sourceMap.RawSourceMap) : sourceMap.RawSourceMap :=
  {| sourceMap.sources := sourceMap.sources m;
     sourceMap.names := sourceMap.names m;
     sourceMap.raw_mappings := map (shift_mapping d) (sourceMap.raw_mappings m);
     sourceMap.sourcesContent := sourceMap.sourcesContent m |}.

(** The result of [scripts] run on its own, placed after [text] and [d]
    generated lines. *)
Definition seeded (text : string) (d : Z) (r : result RetVal) : result RetVal :=
  match r with
  | Ok v => Ok {| ret_source := text ++ ret_source v;
                  ret_sourceMap := option_map (shift_map d) (ret_sourceMap v) |}
  | Throw e => Throw e
  end.

(** The variables of [scripts] when the run starts after [text] and [d]
    generated lines instead of at the top of an empty module. *)
Definition seed_state (text : string) (d : Z) (st : ScriptsState) : ScriptsState :=
  {| st_source := text ++ st_source st;
     st_lineOffset := st_lineOffset st + d;
     st_sourceMapGenerator := option_map (shift_generated d) (st_sourceMapGenerator st) |}.

Definition seed_result (text : string) (d : Z) (r : result ScriptsState)
  : result ScriptsState :=
  match r with
  | Ok st => Ok (seed_state text d st)
  | Throw e => Throw e
  end.

(** The mappings one inline script adds, in token order. *)
Definition script_mappings (file : string) (content : location) (lineOffset : Z)
           (tokens : list espree.token) (added : list sourceMap.mapping) : Prop :=
  Forall2 (maps_token file content lineOffset) (located tokens) added.

(** Texts written one after the other. *)
Definition concat_texts (l : list string) : string :=
  fold_right append "" l.

(** What one link adds to the module: nothing, or the import of a path. *)
Definition import_text (o : option string) : string :=
  match o with
  | Some path => import_statement path
  | None => ""
  end.

Definition import_count (l : list (option string)) : Z :=
  Z.of_nat (List.length (filter (fun o => match o with Some _ => true | None => false end) l)).

(** The registration written by [domModule]: nothing, or the [require] line
    and the call, each on a line of its own after an empty line. *)
Definition registration (require : string) (call : option string) : string :=
  match call with
  | Some c => nl ++ require ++ nl ++ c ++ nl
  | None => ""
  end.

(** The line offset of [scripts] is the number of line feeds written. *)
Definition offset_tracks (st : ScriptsState) : Prop :=
  line_feeds (st_source st) = st_lineOffset st.

(** [s] lies below [p] with no node that [doomed] takes out on the way
    from [p] down to [s], [s] included. *)
Inductive kept_below (doomed : node -> bool) : node -> node -> Prop :=
| kept_child (p s : node) :
    In s (childNodes_of p) -> doomed s = false -> kept_below doomed p s
| kept_deeper (p k s : node) :
    In k (childNodes_of p) -> doomed k = false -> kept_below doomed k s ->
    kept_below doomed p s.

(** The same element without its attributes called [name]. *)
Definition without_attribute (name : string) (n : node) : node :=
  match n with
  | Element t a l kids =>
      Element t (filter (fun x => negb (attr_name x =? name)) a) l kids
  | _ => n
  end.

(** Induction on trees, with the hypothesis on every child. *)
Fixpoint node_induction (P : node -> Prop)
         (Hdoc : forall kids, Forall P kids -> P (Document kids))
         (Helem : forall t a l kids, Forall P kids -> P (Element t a l kids))
         (Htext : forall v l, P (TextNode v l))
         (Hcomment : forall d l, P (CommentNode d l))
         (n : node) : P n :=
  let all :=
    fix all (kids : list node) : Forall P kids :=
      match kids with
      | [] => Forall_nil P
      | k :: kids' =>
          Forall_cons k (node_induction P Hdoc Helem Htext Hcomment k) (all kids')
      end in
  match n with
  | Document kids => Hdoc kids (all kids)
  | Element t a l kids => Helem t a l kids (all kids)
  | TextNode v l => Htext v l
  | CommentNode d l => Hcomment d l
  end.

Section Vocabulary.

Context {host : Host}.

(** The script classes of the specification, read off the [src] attribute. *)
Definition absolute_url (src : string) : Prop :=
  (exists p, protocol (url_parse src) = Some p /\ p <> "")
  /\ slashes (url_parse src) = true.

Definition external_script (n : node) : Prop :=
  exists src, getAttribute n "src" = Some src /\ src <> "" /\ absolute_url src.

Definition local_script (n : node) : Prop :=
  exists src, getAttribute n "src" = Some src /\ src <> "" /\ ~ absolute_url src.

Definition inline_script (n : node) : Prop :=
  getAttribute n "src" = None \/ getAttribute n "src" = Some "".

(** A link the specification gives no output: no [href], an ignored one, or
    one that contains an ignored part. *)
Definition link_ignored (this : ProcessHtml) (href : string) : Prop :=
  In href (or_empty (ignoreLinks (options this)))
  \/ exists partial,
       In partial (or_empty (ignoreLinksFromPartialMatches (options this)))
       /\ contains partial href.

Definition link_silent (this : ProcessHtml) (linkNode : node) : Prop :=
  getAttribute linkNode "href" = None
  \/ getAttribute linkNode "href" = Some ""
  \/ exists href, getAttribute linkNode "href" = Some href /\ link_ignored this href.

(** What the two loops of [domModule] take out of the tree: the scripts that
    are not external, and the links. *)
Definition removed (k : node) : bool :=
  (scriptsPred k && removes_script k) || linkPred k.

(** [o] is what the specification's rules give for the link: nothing for a
    silent link, the import of its path otherwise. *)
Definition link_import (this : ProcessHtml) (linkNode : node) (o : option string) : Prop :=
  match o with
  | None => link_silent this linkNode
  | Some path =>
      ~ link_silent this linkNode
      /\ exists href, getAttribute linkNode "href" = Some href /\ path = link_path this href
  end.

(** The located tokens of a script's text, none when the tokenizer fails. *)
Definition located_tokens (n : node) : list (espree.token * espree.SourceLocation) :=
  match espree_tokenize (parse5_serialize n) with
  | Ok tokens => located tokens
  | Throw _ => []
  end.

(** The located tokens of the scripts that take the inline branch. *)
Definition inline_tokens (nodes : list node)
  : list (espree.token * espree.SourceLocation) :=
  flat_map (fun n => if truthy (or_else (getAttribute n "src") "") then []
                     else located_tokens n) nodes.

(** The document of a run, as each pass parses it. *)
Definition document_of (this : ProcessHtml) : node :=
  Document (parse5_parse (content this)).

End Vocabulary.


(** * Properties *)

(** ** Strings and arrays *)

Lemma append_assoc (a b c : string) : (a ++ b) ++ c = a ++ b ++ c.
Proof. induction a as [|x a IH]; simpl; [reflexivity | now rewrite IH]. Qed.

Lemma append_empty_r (a : string) : a ++ "" = a.
Proof. induction a as [|x a IH]; simpl; [reflexivity | now rewrite IH]. Qed.

Lemma length_append (a b : string) :
  String.length (a ++ b) = (String.length a + String.length b)%nat.
Proof. induction a as [|x a IH]; simpl; [reflexivity | now rewrite IH]. Qed.

Lemma append_grows (a b : string) : a ++ b = a -> b = "".
Proof.
  intros H. apply (f_equal String.length) in H. rewrite length_append in H.
  destruct b; [reflexivity | simpl in H; lia].
Qed.

Lemma truthy_true (s : string) : truthy s = true <-> s <> "".
Proof.
  unfold truthy. destruct (String.eqb_spec s ""); simpl; split; congruence.
Qed.

Lemma truthy_false (s : string) : truthy s = false <-> s = "".
Proof.
  unfold truthy. destruct (String.eqb_spec s ""); simpl; split; congruence.
Qed.

Lemma or_else_empty (x : option string) :
  or_else x "" = match x with Some s => s | None => "" end.
Proof.
  destruct x as [s|]; simpl; [|reflexivity].
  destruct (truthy s) eqn:E; [reflexivity|]. now apply truthy_false in E.
Qed.

Lemma prefix_split (p s : string) :
  String.prefix p s = true <-> exists post, s = p ++ post.
Proof.
  revert s. induction p as [|c p IH]; intros s.
  - destruct s; simpl; (split; [intros _; eexists; reflexivity | reflexivity]).
  - destruct s as [|d s].
    + split; [discriminate | intros [post H]; discriminate].
    + cbn [String.prefix append]. destruct (ascii_dec c d) as [->|Hne].
      * rewrite IH. split; intros [post H]; exists post.
        -- now rewrite H.
        -- now injection H.
      * split; [discriminate | intros [post H]; injection H; congruence].
Qed.

Lemma index_contains (sub s : string) :
  String.index 0 sub s <> None <-> contains sub s.
Proof.
  unfold contains. induction s as [|c s IH].
  - simpl. destruct sub as [|d sub].
    + split; [intros _; exists "", ""; reflexivity | discriminate].
    + split; [congruence|]. intros (pre & post & H).
      destruct pre; simpl in H; discriminate.
  - cbn [String.index]. destruct (String.prefix sub (String c s)) eqn:P.
    + split; [intros _ | discriminate].
      apply prefix_split in P as [post P]. exists "", post. exact P.
    + split.
      * destruct (String.index 0 sub s) eqn:I; [intros _ | congruence].
        destruct IH as [IH _]. destruct IH as (pre & post & H); [congruence|].
        exists (String c pre), post. simpl. now rewrite H.
      * intros (pre & post & H). destruct pre as [|d pre].
        -- simpl in H. exfalso.
           assert (String.prefix sub (String c s) = true)
             by (apply prefix_split; exists post; exact H).
           congruence.
        -- simpl in H. injection H as _ H.
           destruct IH as [_ IH]. destruct (String.index 0 sub s).
           ++ discriminate.
           ++ exfalso. apply IH; [|reflexivity]. exists pre, post. exact H.
Qed.

Lemma indexOf_contains (s sub : string) :
  (indexOf s sub >=? 0)%Z = true <-> contains sub s.
Proof.
  rewrite <- index_contains. unfold indexOf.
  destruct (String.index 0 sub s) as [n|].
  - split; [discriminate | intros _; apply Z.geb_le; lia].
  - split; [discriminate | congruence].
Qed.

Lemma array_indexOf_from_range (arr : list string) (x : string) (i : Z) :
  (0 <= i)%Z ->
  (In x arr -> (0 <= array_indexOf_from i arr x)%Z)
  /\ (~ In x arr -> array_indexOf_from i arr x = (-1)%Z).
Proof.
  revert i. induction arr as [|y arr IH]; intros i Hi; simpl.
  - split; [contradiction | reflexivity].
  - destruct (String.eqb_spec y x) as [->|Hne].
    + split; [intros _; exact Hi | intros H; exfalso; apply H; now left].
    + destruct (IH (i + 1)%Z ltac:(lia)) as [IH1 IH2]. split.
      * intros [H|H]; [congruence | now apply IH1].
      * intros H. apply IH2. intros H'. apply H. now right.
Qed.

Lemma array_indexOf_absent (arr : list string) (x : string) :
  (array_indexOf arr x <? 0)%Z = true <-> ~ In x arr.
Proof.
  unfold array_indexOf.
  destruct (array_indexOf_from_range arr x 0 ltac:(lia)) as [H1 H2].
  rewrite Z.ltb_lt. split.
  - intros H Hin. specialize (H1 Hin). lia.
  - intros H. rewrite (H2 H). lia.
Qed.

Lemma no_match_length {A} (f : A -> bool) (l : list A) :
  (JS.length (filter f l) =? 0)%Z = true <-> forall x, In x l -> f x = false.
Proof.
  unfold JS.length. rewrite Z.eqb_eq. induction l as [|a l IH]; simpl.
  - split; [intros _ x [] | reflexivity].
  - destruct (f a) eqn:E; simpl.
    + split; [lia|]. intros H. specialize (H a (or_introl eq_refl)). congruence.
    + rewrite IH. split.
      * intros H x [<-|Hx]; [exact E | now apply H].
      * intros H x Hx. apply H. now right.
Qed.

Lemma some_match_length {A} (f : A -> bool) (l : list A) :
  (JS.length (filter f l) =? 0)%Z = false -> exists x, In x l /\ f x = true.
Proof.
  unfold JS.length. rewrite Z.eqb_neq. induction l as [|a l IH]; simpl.
  - lia.
  - destruct (f a) eqn:E.
    + intros _. exists a. split; [now left | exact E].
    + intros H. destruct (IH H) as (x & Hx & Hf). exists x. split; [now right | exact Hf].
Qed.

Lemma no_part_contained (href : string) (parts : list string) :
  (JS.length (filter (fun part => (indexOf href part >=? 0)%Z) parts) =? 0)%Z = true
  <-> forall part, In part parts -> ~ contains part href.
Proof.
  rewrite no_match_length. split; intros H part Hin.
  - intros C. apply indexOf_contains in C. rewrite (H part Hin) in C. discriminate.
  - destruct (indexOf href part >=? 0)%Z eqn:E; [|reflexivity].
    exfalso. apply (H part Hin). now apply indexOf_contains.
Qed.

(** A backslash stands before every quote of the escaped text, and nothing
    else changes: the escape of a text is the escapes of its parts. *)
Lemma escape_quotes_append (a b : string) :
  escape_quotes (a ++ b) = escape_quotes a ++ escape_quotes b.
Proof.
  induction a as [|c a IH]; simpl; [reflexivity|].
  destruct (Ascii.eqb c "'"); simpl; now rewrite IH.
Qed.

Lemma line_feeds_append (a b : string) :
  line_feeds (a ++ b) = line_feeds a + line_feeds b.
Proof. induction a as [|c a IH]; simpl; [reflexivity | rewrite IH; lia]. Qed.

Lemma line_feeds_escape_quotes (s : string) :
  line_feeds (escape_quotes s) = line_feeds s.
Proof.
  induction s as [|c s IH]; simpl; [reflexivity|].
  destruct (Ascii.eqb_spec c "'") as [->|Hne]; simpl; now rewrite IH.
Qed.

Section LinkExtractor.

Context {host : Host}.

Lemma link_path_literal (this : ProcessHtml) (href : string) :
  (exists part, In part (or_empty (ignorePathReWrite (options this))) /\ contains part href) ->
  link_path this href = href.
Proof.
  intros (part & Hin & Hc). unfold link_path.
  destruct (JS.length _ =? 0)%Z eqn:E; [|reflexivity].
  exfalso. exact (proj1 (no_part_contained _ _) E part Hin Hc).
Qed.

Lemma link_path_joined (this : ProcessHtml) (href : string) :
  (forall part, In part (or_empty (ignorePathReWrite (options this))) -> ~ contains part href) ->
  link_path this href = osPath_join (osPath_dirname (currentFilePath this)) href.
Proof.
  intros H. unfold link_path.
  apply (proj2 (no_part_contained _ _)) in H. now rewrite H.
Qed.

Lemma link_ignored_dec (this : ProcessHtml) (href : string) :
  ((array_indexOf (or_empty (ignoreLinks (options this))) href <? 0)
   && (JS.length
         (filter (fun partial => (indexOf href partial >=? 0)%Z)
                 (or_empty (ignoreLinksFromPartialMatches (options this)))) =? 0))%Z = true
  <-> ~ link_ignored this href.
Proof.
  rewrite andb_true_iff, array_indexOf_absent, no_part_contained.
  unfold link_ignored. split.
  - intros [H1 H2] [H|(p & Hin & Hc)]; [now apply H1 | exact (H2 p Hin Hc)].
  - intros H. split.
    + intros Hin. apply H. now left.
    + intros p Hin Hc. apply H. right. now exists p.
Qed.

Lemma link_ignored_iff (this : ProcessHtml) (href : string) :
  ((array_indexOf (or_empty (ignoreLinks (options this))) href <? 0)
   && (JS.length
         (filter (fun partial => (indexOf href partial >=? 0)%Z)
                 (or_empty (ignoreLinksFromPartialMatches (options this)))) =? 0))%Z = false
  <-> link_ignored this href.
Proof.
  split.
  - intros E. apply andb_false_iff in E as [E|E].
    + left. destruct (in_dec string_dec href (or_empty (ignoreLinks (options this))))
        as [Hin|Hout]; [exact Hin|].
      apply array_indexOf_absent in Hout. congruence.
    + right. apply some_match_length in E as (part & Hin & Hc).
      exists part. split; [exact Hin | now apply indexOf_contains].
  - intros Hi. destruct (_ && _)%Z eqn:E; [|reflexivity].
    apply link_ignored_dec in E. contradiction.
Qed.

(** C6.  For a link with a non-empty [href], the path that [links] imports
    is the [href] itself when the [href] contains an entry of
    [ignorePathReWrite], and otherwise the directory of [currentFilePath]
    joined with the [href]; this is the path of the import statement the
    link produces whenever it produces one. *)
Theorem links_import_path (this : ProcessHtml) (acc : Fragment) (linkNode : node)
        (href : string) :
  getAttribute linkNode "href" = Some href ->
  href <> "" ->
  let rewrites := or_empty (ignorePathReWrite (options this)) in
  ((exists part, In part rewrites /\ contains part href) ->
   link_path this href = href)
  /\ ((forall part, In part rewrites -> ~ contains part href) ->
      link_path this href = osPath_join (osPath_dirname (currentFilePath this)) href)
  /\ (links_body this acc linkNode = acc
      \/ links_body this acc linkNode =
         {| source := source acc ++ nl ++ "import '" ++ link_path this href ++ "';" ++ nl;
            lineCount := lineCount acc + 2 |}).
Proof.
  intros Hattr Hne rewrites. split; [|split].
  - apply link_path_literal.
  - apply link_path_joined.
  - unfold links_body. rewrite Hattr, or_else_empty.
    apply truthy_true in Hne. rewrite Hne.
    destruct (_ && _)%Z; [right | left]; reflexivity.
Qed.

(** C7.  A link gives no text and no lines when its [href] is missing or
    empty, equals an entry of [ignoreLinks], or contains an entry of
    [ignoreLinksFromPartialMatches]; any other link appends one import
    statement between two line feeds and adds 2 to the line count. *)
Theorem links_body_contribution (this : ProcessHtml) (acc : Fragment) (linkNode : node) :
  (link_silent this linkNode -> links_body this acc linkNode = acc)
  /\ (~ link_silent this linkNode ->
      exists href,
        getAttribute linkNode "href" = Some href /\ href <> ""
        /\ links_body this acc linkNode =
           {| source := source acc ++ nl ++ "import '" ++ link_path this href ++ "';" ++ nl;
              lineCount := lineCount acc + 2 |}).
Proof.
  unfold link_silent, links_body. rewrite or_else_empty.
  destruct (getAttribute linkNode "href") as [href|] eqn:Hattr.
  - destruct (truthy href) eqn:T.
    + apply truthy_true in T. destruct (_ && _)%Z eqn:E.
      * apply link_ignored_dec in E. split.
        -- intros [H|[H|(h & H & Hi)]]; try congruence.
        -- intros _. exists href. repeat split; assumption.
      * apply link_ignored_iff in E. split; [reflexivity|].
        intros H. exfalso. apply H.
        right. right. exists href. split; [reflexivity | exact E].
    + apply truthy_false in T. subst href. split; [reflexivity|].
      intros H. exfalso. apply H. right. now left.
  - split; [reflexivity|]. intros H. exfalso. apply H. now left.
Qed.

(** The line count of [links] is the number of line feeds it wrote, as long
    as no imported path brings a line feed of its own. *)
Lemma links_line_feeds (this : ProcessHtml) :
  (forall href, line_feeds (link_path this href) = 0) ->
  line_feeds (source (links this)) = lineCount (links this).
Proof.
  intros Hpath. unfold links.
  set (acc := {| source := ""; lineCount := 0 |}).
  assert (Hacc : line_feeds (source acc) = lineCount acc) by reflexivity.
  clearbody acc. revert acc Hacc.
  induction (queryAll _ linkPred) as [|n nodes IH]; intros acc Hacc; simpl; [exact Hacc|].
  apply IH. unfold links_body. destruct (truthy _); [|exact Hacc].
  destruct (_ && _)%Z; [|exact Hacc]. cbn [source lineCount].
  unfold import_statement. rewrite !line_feeds_append, Hpath, Hacc.
  cbn -[Z.add]. lia.
Qed.

End LinkExtractor.

(** ** The script emitter *)

Section ScriptEmitter.

Context {host : Host}.

Lemma not_absolute_false (src : string) :
  not_absolute src = false <-> absolute_url src.
Proof.
  unfold not_absolute, absolute_url. rewrite orb_false_iff, !negb_false_iff.
  rewrite or_else_empty, truthy_true.
  destruct (protocol (url_parse src)) as [p|].
  - split.
    + intros [H1 H2]. split; [exists p; split; [reflexivity | exact H1] | exact H2].
    + intros [(q & Hq & Hne) H2]. injection Hq as <-. split; assumption.
  - split; [intros [H _]; congruence | intros [(q & Hq & _) _]; discriminate].
Qed.

Lemma not_absolute_true (src : string) :
  not_absolute src = true <-> ~ absolute_url src.
Proof.
  rewrite <- not_absolute_false. destruct (not_absolute src); split; congruence.
Qed.

(** The three classes cover every node and exclude one another. *)
Lemma script_classes (n : node) :
  (external_script n \/ local_script n \/ inline_script n)
  /\ ~ (external_script n /\ local_script n)
  /\ ~ (external_script n /\ inline_script n)
  /\ ~ (local_script n /\ inline_script n).
Proof.
  unfold external_script, local_script, inline_script.
  destruct (getAttribute n "src") as [src|].
  - destruct (string_dec src "") as [->|Hne].
    + repeat split.
      * right. right. now right.
      * intros [(s & H & Hs & _) _]. congruence.
      * intros [(s & H & Hs & _) _]. congruence.
      * intros [(s & H & Hs & _) _]. congruence.
    + repeat split.
      * destruct (not_absolute src) eqn:E.
        -- right. left. exists src. apply not_absolute_true in E.
           split; [reflexivity | split; [exact Hne | exact E]].
        -- left. exists src. apply not_absolute_false in E.
           split; [reflexivity | split; [exact Hne | exact E]].
      * intros [(s & H & _ & Ha) (s' & H' & _ & Hn)]. congruence.
      * intros [_ [H|H]]; congruence.
      * intros [_ [H|H]]; congruence.
  - repeat split.
    + right. right. now left.
    + intros [(s & H & _) _]. discriminate.
    + intros [(s & H & _) _]. discriminate.
    + intros [(s & H & _) _]. discriminate.
Qed.

Lemma src_of_inline (n : node) :
  inline_script n <-> truthy (or_else (getAttribute n "src") "") = false.
Proof.
  rewrite or_else_empty, truthy_false. unfold inline_script.
  destruct (getAttribute n "src") as [s|]; split.
  - intros [H|H]; congruence.
  - intros ->. now right.
  - reflexivity.
  - intros _. now left.
Qed.

Lemma scripts_body_external (this : ProcessHtml) (st : ScriptsState) (n : node) :
  external_script n -> scripts_body this st n = Ok st.
Proof.
  intros (src & Hattr & Hne & Habs). unfold scripts_body.
  rewrite Hattr, or_else_empty. apply truthy_true in Hne. rewrite Hne.
  apply not_absolute_false in Habs. now rewrite Habs.
Qed.

Lemma scripts_body_local (this : ProcessHtml) (st : ScriptsState) (n : node) (src : string) :
  getAttribute n "src" = Some src ->
  local_script n ->
  scripts_body this st n =
  Ok {| st_source :=
          st_source st ++ nl ++ "import '"
          ++ osPath_join (osPath_dirname (currentFilePath this)) src ++ "';" ++ nl;
        st_lineOffset := st_lineOffset st + 2;
        st_sourceMapGenerator := st_sourceMapGenerator st |}.
Proof.
  intros Hattr (s & Hs & Hne & Habs). rewrite Hattr in Hs. injection Hs as <-.
  unfold scripts_body. rewrite Hattr, or_else_empty.
  apply truthy_true in Hne. rewrite Hne.
  apply not_absolute_true in Habs. now rewrite Habs.
Qed.

(** What the loop over the tokens leaves in the generator. *)
Lemma tokens_fold (this : ProcessHtml) (lineDelta charDelta lineOffset : Z)
      (tokens : list espree.token) (g : sourceMap.SourceMapGenerator) :
  fold_left (tokens_body this lineDelta charDelta lineOffset) tokens g =
  {| sourceMap.mappings :=
       (sourceMap.mappings g
        ++ map (fun tl => token_mapping this lineDelta charDelta lineOffset (fst tl) (snd tl))
               (located tokens))%list;
     sourceMap.sourcesContents := sourceMap.sourcesContents g |}.
Proof.
  revert g. induction tokens as [|t tokens IH]; intros g; simpl.
  - rewrite app_nil_r. now destruct g.
  - rewrite IH. unfold tokens_body, located. simpl.
    destruct (espree.loc t) as [l|]; simpl; [|reflexivity].
    now rewrite <- app_assoc.
Qed.

Lemma token_mapping_maps (this : ProcessHtml) (c : location) (lineOffset : Z)
      (tl : espree.token * espree.SourceLocation) :
  maps_token (currentFilePath this) c lineOffset tl
             (token_mapping this (line c - 1) (col c) lineOffset (fst tl) (snd tl)).
Proof.
  unfold maps_token, token_mapping. simpl. repeat split.
  - intros H. apply Z.eqb_eq in H. now rewrite H.
  - intros H. apply Z.eqb_neq in H. rewrite H. lia.
  - intros H. apply String.eqb_eq in H. now rewrite H.
  - intros H. apply String.eqb_neq in H. now rewrite H.
Qed.

(** The inline branch, step by step. *)
Lemma scripts_body_inline (this : ProcessHtml) (st : ScriptsState) (n : node) :
  inline_script n ->
  scripts_body this st n =
  (tokens <- espree_tokenize (parse5_serialize n) ;;
   child <- deref (nth_error (childNodes_of n) 0) ;;
   c <- deref (location_of child) ;;
   el <- deref (element_location_of n) ;;
   e <- deref (endTag el) ;;
   s <- deref (startTag el) ;;
   Ok {| st_source := st_source st ++ nl ++ parse5_serialize n ++ nl;
         st_lineOffset := st_lineOffset st + (2 + (line e - line s));
         st_sourceMapGenerator :=
           Some (fold_left (tokens_body this (line c - 1) (col c) (st_lineOffset st))
                           tokens (generator_of st)) |}).
Proof.
  intros H. apply src_of_inline in H. unfold scripts_body. rewrite H. reflexivity.
Qed.

Lemma scripts_body_inline_text (this : ProcessHtml) (st st' : ScriptsState)
      (n : node) :
  inline_script n ->
  scripts_body this st n = Ok st' ->
  st_source st' = st_source st ++ nl ++ parse5_serialize n ++ nl.
Proof.
  intros Hi. rewrite (scripts_body_inline this st n Hi).
  destruct (espree_tokenize (parse5_serialize n)) as [tokens|e];
    cbn [JS.bind JS.deref]; [|discriminate].
  intros H.
  destruct (nth_error (childNodes_of n) 0) as [child|]; cbn [JS.bind JS.deref] in H; [|discriminate].
  destruct (location_of child) as [c|]; cbn [JS.bind JS.deref] in H; [|discriminate].
  destruct (element_location_of n) as [el|]; cbn [JS.bind JS.deref] in H; [|discriminate].
  destruct (endTag el) as [e|]; cbn [JS.bind JS.deref] in H; [|discriminate].
  destruct (startTag el) as [s|]; cbn [JS.bind JS.deref] in H; [|discriminate].
  injection H as <-. reflexivity.
Qed.

(** C3.  Every node falls in exactly one of the three classes.  An external
    script (non-empty [src] that parses with a protocol and the slashes)
    changes nothing; a local one (non-empty [src] without a protocol or
    without the slashes) appends the import of the directory of
    [currentFilePath] joined with [src], between line feeds, and adds 2 to
    the line offset; an inline one (no [src]) has its text tokenized, a
    tokenizer error ending the run, and emitted between line feeds. *)
Theorem scripts_body_by_class (this : ProcessHtml) (st : ScriptsState) (n : node) :
  ((external_script n \/ local_script n \/ inline_script n)
   /\ ~ (external_script n /\ local_script n)
   /\ ~ (external_script n /\ inline_script n)
   /\ ~ (local_script n /\ inline_script n))
  /\ (external_script n -> scripts_body this st n = Ok st)
  /\ (local_script n ->
      exists src,
        getAttribute n "src" = Some src
        /\ scripts_body this st n =
           Ok {| st_source :=
                   st_source st ++ nl ++ "import '"
                   ++ osPath_join (osPath_dirname (currentFilePath this)) src ++ "';" ++ nl;
                 st_lineOffset := st_lineOffset st + 2;
                 st_sourceMapGenerator := st_sourceMapGenerator st |})
  /\ (inline_script n ->
      (forall e, espree_tokenize (parse5_serialize n) = Throw e ->
                 scripts_body this st n = Throw e)
      /\ (forall st', scripts_body this st n = Ok st' ->
                      (exists tokens, espree_tokenize (parse5_serialize n) = Ok tokens)
                      /\ st_source st' = st_source st ++ nl ++ parse5_serialize n ++ nl)).
Proof.
  split; [apply script_classes|]. split; [apply scripts_body_external|]. split.
  - intros Hl. destruct Hl as (src & Hattr & Hrest) eqn:E. exists src.
    split; [exact Hattr|]. apply scripts_body_local; [exact Hattr|].
    exists src. exact (conj Hattr Hrest).
  - intros Hi. rewrite (scripts_body_inline this st n Hi). split.
    + intros e He. rewrite He. reflexivity.
    + intros st'. destruct (espree_tokenize (parse5_serialize n)) as [tokens|e];
        cbn [JS.bind JS.deref]; [|discriminate].
      intros H. split; [now exists tokens|].
      destruct (nth_error (childNodes_of n) 0) as [child|]; cbn [JS.bind JS.deref] in H; [|discriminate].
      destruct (location_of child) as [c|]; cbn [JS.bind JS.deref] in H; [|discriminate].
      destruct (element_location_of n) as [el|]; cbn [JS.bind JS.deref] in H; [|discriminate].
      destruct (endTag el) as [e|]; cbn [JS.bind JS.deref] in H; [|discriminate].
      destruct (startTag el) as [s|]; cbn [JS.bind JS.deref] in H; [|discriminate].
      injection H as <-. reflexivity.
Qed.

(** C1.  An inline script whose text tokenizes, whose first child carries a
    location and whose tags are both located adds one mapping per located
    token, in order: original line = token line + (content line - 1),
    original column = token column + content column on token line 1 and the
    token column elsewhere, generated line = token line + line offset,
    generated column = token column, the name set for identifiers only; and
    the line offset grows by 2 + (end-tag line - start-tag line). *)
Theorem scripts_body_inline_mappings (this : ProcessHtml) (st : ScriptsState) (n : node)
        (tokens : list espree.token) (child : node) (c : location)
        (el : element_location) (s e : location) :
  inline_script n ->
  espree_tokenize (parse5_serialize n) = Ok tokens ->
  nth_error (childNodes_of n) 0 = Some child ->
  location_of child = Some c ->
  element_location_of n = Some el ->
  startTag el = Some s ->
  endTag el = Some e ->
  exists added,
    script_mappings (currentFilePath this) c (st_lineOffset st) tokens added
    /\ scripts_body this st n =
       Ok {| st_source := st_source st ++ nl ++ parse5_serialize n ++ nl;
             st_lineOffset := st_lineOffset st + 2 + (line e - line s);
             st_sourceMapGenerator :=
               Some {| sourceMap.mappings :=
                         (sourceMap.mappings (generator_of st) ++ added)%list;
                       sourceMap.sourcesContents :=
                         sourceMap.sourcesContents (generator_of st) |} |}.
Proof.
  intros Hi Htok Hchild Hc Hel Hs He.
  exists (map (fun tl => token_mapping this (line c - 1) (col c) (st_lineOffset st)
                                       (fst tl) (snd tl))
              (located tokens)).
  split.
  - unfold script_mappings. induction (located tokens) as [|tl l IH]; simpl.
    + constructor.
    + constructor; [apply token_mapping_maps | exact IH].
  - rewrite (scripts_body_inline this st n Hi), Htok, Hchild.
    cbn [JS.bind JS.deref]. rewrite Hc, Hel. cbn [JS.bind JS.deref].
    rewrite He, Hs. cbn [JS.bind JS.deref].
    rewrite tokens_fold. do 2 f_equal. lia.
Qed.

End ScriptEmitter.

(** ** A whole run of [scripts] *)

Section ScriptsRun.

Context {host : Host}.

(** One script creates the generator exactly when it is inline, and never
    touches the embedded contents. *)
Lemma scripts_body_generator (this : ProcessHtml) (st st' : ScriptsState) (n : node) :
  scripts_body this st n = Ok st' ->
  (st_sourceMapGenerator st' <> None <->
   st_sourceMapGenerator st <> None \/ inline_script n)
  /\ sourceMap.sourcesContents (generator_of st') = sourceMap.sourcesContents (generator_of st).
Proof.
  destruct (script_classes n) as ([He|[Hl|Hi]] & X1 & X2 & X3).
  - rewrite (scripts_body_external this st n He). intros H. injection H as <-.
    split; [|reflexivity]. split; [now left|]. intros [H|H]; [exact H|].
    exfalso. apply X2. now split.
  - destruct Hl as (src & Hattr & Hrest) eqn:E.
    rewrite (scripts_body_local this st n src Hattr Hl). intros H. injection H as <-.
    unfold generator_of. simpl. split; [|reflexivity].
    split; [now left|]. intros [H|H]; [exact H|]. exfalso. apply X3. now split.
  - rewrite (scripts_body_inline this st n Hi).
    destruct (espree_tokenize (parse5_serialize n)) as [tokens|]; cbn [JS.bind]; [|discriminate].
    destruct (deref (nth_error (childNodes_of n) 0)) as [child|]; cbn [JS.bind]; [|discriminate].
    destruct (deref (location_of child)) as [c|]; cbn [JS.bind]; [|discriminate].
    destruct (deref (element_location_of n)) as [el|]; cbn [JS.bind]; [|discriminate].
    destruct (deref (endTag el)) as [e|]; cbn [JS.bind]; [|discriminate].
    destruct (deref (startTag el)) as [s|]; cbn [JS.bind]; [|discriminate].
    intros H. injection H as <-. unfold generator_of.
    cbn [st_sourceMapGenerator]. rewrite tokens_fold.
    cbn [sourceMap.sourcesContents]. split; [|reflexivity].
    split; [intros _; now right | discriminate].
Qed.

Lemma forEach_generator (this : ProcessHtml) (nodes : list node) (st st' : ScriptsState) :
  forEach (scripts_body this) nodes st = Ok st' ->
  (st_sourceMapGenerator st' <> None <->
   st_sourceMapGenerator st <> None \/ exists n, In n nodes /\ inline_script n)
  /\ sourceMap.sourcesContents (generator_of st') = sourceMap.sourcesContents (generator_of st).
Proof.
  revert st. induction nodes as [|n nodes IH]; intros st; simpl.
  - intros H. injection H as <-. split; [|reflexivity].
    split; [now left|]. intros [H|(n & [] & _)]. exact H.
  - destruct (scripts_body this st n) as [st1|] eqn:E; cbn [JS.bind]; [|discriminate].
    intros H. destruct (IH st1 H) as [IH1 IH2].
    destruct (scripts_body_generator this st st1 n E) as [S1 S2].
    split; [|congruence]. rewrite IH1, S1. split.
    + intros [[H1|H1]|(m & Hm & Hi)].
      * now left.
      * right. exists n. split; [now left | exact H1].
      * right. exists m. split; [now right | exact Hi].
    + intros [H1|(m & [<-|Hm] & Hi)].
      * left. now left.
      * left. now right.
      * right. now exists m.
Qed.

Lemma not_inline_truthy (n : node) :
  ~ inline_script n -> truthy (or_else (getAttribute n "src") "") = true.
Proof.
  intros H. destruct (truthy _) eqn:T; [reflexivity|].
  exfalso. apply H. now apply src_of_inline.
Qed.

(** The mappings one script adds are those of its located tokens. *)
Lemma scripts_body_mappings (this : ProcessHtml) (st st' : ScriptsState) (n : node) :
  scripts_body this st n = Ok st' ->
  exists added,
    sourceMap.mappings (generator_of st') = (sourceMap.mappings (generator_of st) ++ added)%list
    /\ Forall2 (fun tl m => exists c offset, maps_token (currentFilePath this) c offset tl m)
               (inline_tokens [n]) added.
Proof.
  unfold inline_tokens. cbn [flat_map]. rewrite app_nil_r.
  destruct (script_classes n) as ([He|[Hl|Hi]] & X1 & X2 & X3).
  - rewrite (scripts_body_external this st n He). intros H. injection H as <-.
    exists []. rewrite app_nil_r, not_inline_truthy; [now split|].
    intros Hi. apply X2. now split.
  - destruct Hl as (src & Hattr & Hrest) eqn:E.
    rewrite (scripts_body_local this st n src Hattr Hl). intros H. injection H as <-.
    exists []. rewrite app_nil_r, not_inline_truthy; [now split|].
    intros Hi. apply X3. now split.
  - rewrite (proj1 (src_of_inline n) Hi), (scripts_body_inline this st n Hi).
    unfold located_tokens.
    destruct (espree_tokenize (parse5_serialize n)) as [tokens|];
      cbn [JS.bind JS.deref]; [|discriminate].
    destruct (nth_error (childNodes_of n) 0) as [child|]; cbn [JS.bind JS.deref]; [|discriminate].
    destruct (location_of child) as [c|]; cbn [JS.bind JS.deref]; [|discriminate].
    destruct (element_location_of n) as [el|]; cbn [JS.bind JS.deref]; [|discriminate].
    destruct (endTag el) as [e|]; cbn [JS.bind JS.deref]; [|discriminate].
    destruct (startTag el) as [s|]; cbn [JS.bind JS.deref]; [|discriminate].
    intros H. injection H as <-. unfold generator_of at 1. cbn [st_sourceMapGenerator].
    rewrite tokens_fold. cbn [sourceMap.mappings]. eexists. split; [reflexivity|].
    induction (located tokens) as [|tl l IH]; cbn [map]; constructor; [|exact IH].
    exists c, (st_lineOffset st). apply token_mapping_maps.
Qed.

Lemma forEach_mappings (this : ProcessHtml) (nodes : list node) (st st' : ScriptsState) :
  forEach (scripts_body this) nodes st = Ok st' ->
  exists added,
    sourceMap.mappings (generator_of st') = (sourceMap.mappings (generator_of st) ++ added)%list
    /\ Forall2 (fun tl m => exists c offset, maps_token (currentFilePath this) c offset tl m)
               (inline_tokens nodes) added.
Proof.
  revert st. induction nodes as [|n nodes IH]; intros st; cbn [forEach].
  - intros H. injection H as <-. exists []. rewrite app_nil_r. split; [reflexivity | constructor].
  - destruct (scripts_body this st n) as [st1|] eqn:E; cbn [JS.bind]; [|discriminate].
    intros H. destruct (IH st1 H) as (rest & Hrest & Frest).
    destruct (scripts_body_mappings this st st1 n E) as (first & Hfirst & Ffirst).
    exists (first ++ rest)%list. split.
    + now rewrite Hrest, Hfirst, app_assoc.
    + replace (inline_tokens (n :: nodes))
        with (inline_tokens [n] ++ inline_tokens nodes)%list
        by (unfold inline_tokens; cbn [flat_map]; now rewrite app_nil_r).
      now apply Forall2_app.
Qed.

Lemma distinct_constant (l : list string) (c : string) :
  (forall x, In x l -> x = c) -> l <> [] -> sourceMap.distinct l = [c].
Proof.
  induction l as [|x l IH]; intros Hall Hne; [congruence|].
  cbn [sourceMap.distinct]. rewrite (Hall x (or_introl eq_refl)). f_equal.
  destruct l as [|y l]; [reflexivity|].
  rewrite IH; [|intros z Hz; apply Hall; now right | discriminate].
  cbn [filter]. now rewrite String.eqb_refl.
Qed.

(** C8, as the code has it.  The result of [scripts] has a [sourceMap]
    exactly when some script of the document is inline (no [src], or an
    empty one).  The
    map lists [currentFilePath] as its one source, with the text of the file
    as its content, when some inline script has a token with a location;
    when none has, the map is there without source, content or mapping. *)
Theorem scripts_sourceMap_presence (this : ProcessHtml) (initialSource : string)
        (initialLineOffset : Z) (r : RetVal) :
  scripts this initialSource initialLineOffset = Ok r ->
  let nodes := queryAll (document_of this) scriptsPred in
  (ret_sourceMap r <> None <-> exists n, In n nodes /\ inline_script n)
  /\ (forall m, ret_sourceMap r = Some m ->
        (inline_tokens nodes <> [] ->
         sourceMap.sources m = [currentFilePath this]
         /\ sourceMap.sourcesContent m = [Some (content this)])
        /\ (inline_tokens nodes = [] ->
            sourceMap.sources m = []
            /\ sourceMap.sourcesContent m = []
            /\ sourceMap.raw_mappings m = [])).
Proof.
  intros Hrun nodes. unfold scripts in Hrun. fold (document_of this) in Hrun. fold nodes in Hrun.
  set (st0 := {| st_source := initialSource; st_lineOffset := initialLineOffset;
                 st_sourceMapGenerator := None |}) in Hrun.
  destruct (forEach (scripts_body this) nodes st0) as [st|] eqn:E;
    cbn [JS.bind] in Hrun; [|discriminate].
  destruct (forEach_generator this nodes st0 st E) as [G1 G2].
  destruct (forEach_mappings this nodes st0 st E) as (added & Hadded & Fadded).
  assert (Hinit : st_sourceMapGenerator st <> None <->
                  exists n, In n nodes /\ inline_script n).
  { rewrite G1. simpl. split; [intros [H|H]; [congruence | exact H] | now right]. }
  unfold generator_of in G2, Hadded. cbn [st_sourceMapGenerator st0] in G2, Hadded.
  destruct (st_sourceMapGenerator st) as [g|]; injection Hrun as <-; cbn [ret_sourceMap].
  - split; [split; [intros _; apply Hinit; discriminate | discriminate]|].
    intros m Hm. injection Hm as <-.
    cbn [sourceMap.mappings sourceMap.sourcesContents sourceMap.new_SourceMapGenerator app]
      in G2, Hadded.
    unfold sourceMap.toJSON, sourceMap.setSourceContent, sourceMap.content_of.
    cbn [sourceMap.sources sourceMap.sourcesContent sourceMap.raw_mappings
         sourceMap.mappings sourceMap.sourcesContents].
    rewrite G2, Hadded. cbn [filter]. split.
    + intros Hne.
      assert (Hsrc : sourceMap.distinct (map sourceMap.source added) = [currentFilePath this]).
      { apply distinct_constant.
        - intros x Hx. apply in_map_iff in Hx as (mp & <- & Hmp).
          clear - Fadded Hmp. induction Fadded as [|tl mp' l l' Hone _ IH]; [destruct Hmp|].
          destruct Hmp as [<-|Hmp]; [|now apply IH].
          destruct Hone as (c & offset & Hmaps). apply Hmaps.
        - destruct Fadded; [congruence | discriminate]. }
      rewrite Hsrc. cbn [map find fst snd]. now rewrite String.eqb_refl.
    + intros Hnone. rewrite Hnone in Fadded. inversion Fadded. now repeat split.
  - split; [|discriminate].
    split; [congruence | intros H; exfalso; now apply (proj2 Hinit H)].
Qed.

Lemma compare_shift (d : Z) (a b : sourceMap.mapping) :
  sourceMap.compareByGeneratedPositionsInflated (shift_mapping d a) (shift_mapping d b)
  = sourceMap.compareByGeneratedPositionsInflated a b.
Proof.
  unfold sourceMap.compareByGeneratedPositionsInflated, shift_mapping.
  cbn [sourceMap.generated sourceMap.original sourceMap.source sourceMap.name
       sourceMap.line sourceMap.column].
  rewrite !(Z.add_comm _ d), Z.add_compare_mono_l. reflexivity.
Qed.

Lemma insert_shift (d : Z) (m : sourceMap.mapping) (l : list sourceMap.mapping) :
  sourceMap.insert (shift_mapping d m) (map (shift_mapping d) l)
  = map (shift_mapping d) (sourceMap.insert m l).
Proof.
  induction l as [|x l IH]; [reflexivity|].
  cbn [map sourceMap.insert]. rewrite compare_shift, IH.
  now destruct (sourceMap.compareByGeneratedPositionsInflated m x).
Qed.

Lemma sorted_shift (d : Z) (l : list sourceMap.mapping) :
  sourceMap.sorted (map (shift_mapping d) l) = map (shift_mapping d) (sourceMap.sorted l).
Proof.
  unfold sourceMap.sorted.
  change (@nil sourceMap.mapping) with (map (shift_mapping d) []) at 1.
  generalize (@nil sourceMap.mapping) as acc.
  induction l as [|m l IH]; intros acc; [reflexivity|].
  cbn [map fold_left]. now rewrite insert_shift, IH.
Qed.

Lemma without_repeats_shift (d : Z) (l : list sourceMap.mapping) :
  sourceMap.without_repeats (map (shift_mapping d) l)
  = map (shift_mapping d) (sourceMap.without_repeats l).
Proof.
  induction l as [|m l IH]; [reflexivity|].
  destruct l as [|x l]; [reflexivity|].
  change (sourceMap.without_repeats (map (shift_mapping d) (m :: x :: l)))
    with (match sourceMap.compareByGeneratedPositionsInflated
                  (shift_mapping d m) (shift_mapping d x) with
          | Eq => sourceMap.without_repeats (map (shift_mapping d) (x :: l))
          | _ => shift_mapping d m
                 :: sourceMap.without_repeats (map (shift_mapping d) (x :: l))
          end).
  rewrite compare_shift, IH.
  change (sourceMap.without_repeats (m :: x :: l))
    with (match sourceMap.compareByGeneratedPositionsInflated m x with
          | Eq => sourceMap.without_repeats (x :: l)
          | _ => m :: sourceMap.without_repeats (x :: l)
          end).
  now destruct (sourceMap.compareByGeneratedPositionsInflated m x).
Qed.

(** Moving the generated lines of the generator moves those of its map. *)
Lemma toJSON_shift (d : Z) (g : sourceMap.SourceMapGenerator) (file text : string) :
  sourceMap.toJSON (sourceMap.setSourceContent (shift_generated d g) file text)
  = shift_map d (sourceMap.toJSON (sourceMap.setSourceContent g file text)).
Proof.
  unfold sourceMap.toJSON, shift_map, sourceMap.setSourceContent, shift_generated,
    sourceMap.content_of.
  cbn [sourceMap.mappings sourceMap.sourcesContents sourceMap.sources sourceMap.names
       sourceMap.raw_mappings sourceMap.sourcesContent].
  assert (Hn : forall l, sourceMap.names_of (map (shift_mapping d) l) = sourceMap.names_of l).
  { unfold sourceMap.names_of. induction l as [|m l IH]; [reflexivity|].
    cbn [map flat_map]. rewrite IH. reflexivity. }
  assert (Hs : forall l, map sourceMap.source (map (shift_mapping d) l) = map sourceMap.source l)
    by (intros l; rewrite map_map; reflexivity).
  now rewrite Hs, Hn, sorted_shift, without_repeats_shift.
Qed.

(** Starting the run later moves the text and the generated lines, and
    nothing else. *)
Lemma tokens_fold_shift (this : ProcessHtml) (lineDelta charDelta lineOffset d : Z)
      (tokens : list espree.token) (g : sourceMap.SourceMapGenerator) :
  fold_left (tokens_body this lineDelta charDelta (lineOffset + d)) tokens
            (shift_generated d g) =
  shift_generated d (fold_left (tokens_body this lineDelta charDelta lineOffset) tokens g).
Proof.
  rewrite !tokens_fold. unfold shift_generated. simpl. f_equal.
  rewrite map_app, map_map. f_equal. apply map_ext. intros [t l]. simpl.
  unfold shift_mapping, token_mapping. simpl. do 2 f_equal. lia.
Qed.

Lemma scripts_body_seed (this : ProcessHtml) (text : string) (d : Z)
      (st : ScriptsState) (n : node) :
  scripts_body this (seed_state text d st) n = seed_result text d (scripts_body this st n).
Proof.
  destruct (script_classes n) as ([He|[Hl|Hi]] & _).
  - now rewrite !(scripts_body_external this _ n He).
  - destruct Hl as (src & Hattr & Hrest) eqn:E.
    rewrite !(scripts_body_local this _ n src Hattr Hl). simpl.
    unfold seed_state. simpl. rewrite append_assoc. do 2 f_equal. lia.
  - rewrite !(scripts_body_inline this _ n Hi).
    destruct (espree_tokenize (parse5_serialize n)) as [tokens|]; cbn [JS.bind]; [|reflexivity].
    destruct (deref (nth_error (childNodes_of n) 0)) as [child|]; cbn [JS.bind]; [|reflexivity].
    destruct (deref (location_of child)) as [c|]; cbn [JS.bind]; [|reflexivity].
    destruct (deref (element_location_of n)) as [el|]; cbn [JS.bind]; [|reflexivity].
    destruct (deref (endTag el)) as [e|]; cbn [JS.bind]; [|reflexivity].
    destruct (deref (startTag el)) as [s|]; cbn [JS.bind]; [|reflexivity].
    cbn [seed_result].
    assert (G : generator_of (seed_state text d st) = shift_generated d (generator_of st)).
    { unfold generator_of, seed_state. simpl.
      destruct (st_sourceMapGenerator st); reflexivity. }
    rewrite G. unfold seed_state.
    cbn [st_source st_lineOffset st_sourceMapGenerator option_map].
    rewrite tokens_fold_shift, append_assoc. do 2 f_equal. lia.
Qed.

Lemma forEach_seed (this : ProcessHtml) (text : string) (d : Z)
      (nodes : list node) (st : ScriptsState) :
  forEach (scripts_body this) nodes (seed_state text d st) =
  seed_result text d (forEach (scripts_body this) nodes st).
Proof.
  revert st. induction nodes as [|n nodes IH]; intros st; simpl; [reflexivity|].
  rewrite scripts_body_seed. destruct (scripts_body this st n) as [st1|]; simpl.
  - apply IH.
  - reflexivity.
Qed.

Lemma scripts_seeded (this : ProcessHtml) (initialSource : string) (initialLineOffset : Z) :
  scripts this initialSource initialLineOffset =
  seeded initialSource initialLineOffset (scripts this "" 0).
Proof.
  unfold scripts.
  set (st0 := {| st_source := ""; st_lineOffset := 0; st_sourceMapGenerator := None |}).
  replace {| st_source := initialSource; st_lineOffset := initialLineOffset;
             st_sourceMapGenerator := None |}
    with (seed_state initialSource initialLineOffset st0)
    by (unfold seed_state; simpl; now rewrite append_empty_r).
  rewrite forEach_seed.
  destruct (forEach (scripts_body this) _ st0) as [st|];
    cbn [seed_result JS.bind seeded]; [|reflexivity].
  unfold seed_state. cbn [st_source st_sourceMapGenerator].
  destruct (st_sourceMapGenerator st) as [g|]; cbn [option_map seeded ret_source ret_sourceMap];
    [|reflexivity].
  now rewrite toJSON_shift.
Qed.

(** C2.  [process] is [scripts] started from the text of [links] followed by
    the text of [domModule] and from the sum of their line counts, the two
    fragments being computed first; so its result is the run of [scripts]
    alone, placed after that text and moved down by that many lines.  The
    loader hands the host the [source] of that result as the code and its
    [sourceMap], when there is one, as the map. *)
Theorem process_sequence (this : ProcessHtml) :
  let links := links this in
  let doms := domModule this in
  process this = scripts this (source links ++ source doms) (lineCount links + lineCount doms)
  /\ process this =
     seeded (source links ++ source doms) (lineCount links + lineCount doms)
            (scripts this "" 0)
  /\ (forall loader text,
        entry loader text =
        match process (new_ProcessHtml text loader) with
        | Ok r => Ok (ret_source r, ret_sourceMap r)
        | Throw e => Throw e
        end).
Proof.
  intros l d. split; [reflexivity|]. split.
  - unfold process. apply scripts_seeded.
  - intros loader text. reflexivity.
Qed.

End ScriptsRun.

(** ** Trees: walks and removal *)

Lemma queryAll_unfold (n : node) (pred : node -> bool) :
  queryAll n pred =
  ((if pred n then [n] else []) ++ flat_map (fun k => queryAll k pred) (childNodes_of n))%list.
Proof. destruct n; simpl; destruct (pred _); reflexivity. Qed.

Lemma query_unfold (n : node) (pred : node -> bool) :
  query n pred =
  if pred n then Some n else first_match (fun k => query k pred) (childNodes_of n).
Proof. destruct n; simpl; destruct (pred _); reflexivity. Qed.

Lemma queryAll_all (n : node) : queryAll n (fun _ => true) = n :: descendants n.
Proof. now rewrite queryAll_unfold. Qed.

Lemma occurs_refl (n : node) : occurs n n.
Proof. unfold occurs. rewrite queryAll_all. now left. Qed.

Lemma occurs_descendant (x n : node) : In x (descendants n) -> occurs x n.
Proof. unfold occurs. rewrite queryAll_all. now right. Qed.

Lemma occurs_child (x k n : node) :
  In k (childNodes_of n) -> occurs x k -> occurs x n.
Proof.
  intros Hk Hx. apply occurs_descendant. unfold descendants.
  apply in_flat_map. now exists k.
Qed.

Lemma child_descendant (k n : node) : In k (childNodes_of n) -> In k (descendants n).
Proof.
  intros Hk. unfold descendants. apply in_flat_map. exists k.
  split; [exact Hk | apply occurs_refl].
Qed.

(** A walk returns nodes of the tree that satisfy the predicate. *)
Lemma queryAll_sound (pred : node -> bool) (n x : node) :
  In x (queryAll n pred) -> pred x = true /\ occurs x n.
Proof.
  revert x. induction n using node_induction; intros x; rewrite queryAll_unfold;
    cbn [childNodes_of]; intros Hx; apply in_app_or in Hx as [Hx|Hx].
  all: try (destruct (pred _) eqn:E; [destruct Hx as [<-|[]]; split;
              [exact E | apply occurs_refl] | destruct Hx]).
  all: try (destruct Hx; fail).
  all: apply in_flat_map in Hx as (k & Hk & Hx);
    rewrite Forall_forall in H; destruct (H k Hk x Hx) as [H1 H2];
    split; [exact H1 | eapply occurs_child; [exact Hk | exact H2]].
Qed.

Lemma removeAll_children (doomed : node -> bool) (n : node) :
  childNodes_of (removeAll doomed n) =
  flat_map (fun k => if doomed k then [] else [removeAll doomed k]) (childNodes_of n).
Proof. destruct n; reflexivity. Qed.

Lemma removeAll_attribute (doomed : node -> bool) (n : node) (name : string) :
  getAttribute (removeAll doomed n) name = getAttribute n name.
Proof. destruct n; reflexivity. Qed.

Lemma removeAll_tag (doomed : node -> bool) (n : node) (name : string) :
  hasTagName name (removeAll doomed n) = hasTagName name n.
Proof. destruct n; reflexivity. Qed.

(** A child that stays is the cleaned copy of an original child that was
    not doomed. *)
Lemma removeAll_child (doomed : node -> bool) (n k' : node) :
  In k' (childNodes_of (removeAll doomed n)) <->
  exists k, In k (childNodes_of n) /\ doomed k = false /\ k' = removeAll doomed k.
Proof.
  rewrite removeAll_children, in_flat_map. split.
  - intros (k & Hk & Hin). exists k. destruct (doomed k); [destruct Hin|].
    destruct Hin as [<-|[]]. now repeat split.
  - intros (k & Hk & Hd & ->). exists k. split; [exact Hk|]. rewrite Hd. now left.
Qed.

Lemma descendants_removeAll (doomed : node -> bool) (n x : node) :
  In x (descendants (removeAll doomed n)) ->
  exists y, In y (descendants n) /\ doomed y = false /\ x = removeAll doomed y.
Proof.
  revert x. induction n using node_induction; intros x Hx.
  3,4: destruct Hx.
  all: unfold descendants in Hx; apply in_flat_map in Hx as (k' & Hk' & Hx);
    apply removeAll_child in Hk' as (k & Hk & Hd & ->);
    rewrite queryAll_all in Hx; destruct Hx as [<-|Hx].
  all: try (exists k; split; [now apply child_descendant | now split]).
  all: rewrite Forall_forall in H; destruct (H k Hk x Hx) as (y & Hy & Hdy & ->);
    exists y; split; [|now split];
    unfold descendants; apply in_flat_map; exists k; split; [exact Hk|];
    now apply occurs_descendant.
Qed.

(** A text-only node is left as it is. *)
Lemma removeAll_text_only (doomed : node -> bool) (n : node) :
  (forall v l, doomed (TextNode v l) = false) ->
  text_only n -> removeAll doomed n = n.
Proof.
  intros Hd Ht. unfold text_only in Ht.
  assert (K : forall kids,
             (forall k, In k kids -> exists v l, k = TextNode v l) ->
             flat_map (fun k => if doomed k then [] else [removeAll doomed k]) kids = kids).
  { induction kids as [|k kids IH]; intros Hk; simpl; [reflexivity|].
    destruct (Hk k (or_introl eq_refl)) as (v & l & ->). rewrite Hd. simpl.
    rewrite IH; [reflexivity|]. intros k' Hk'. apply Hk. now right. }
  destruct n; simpl in *; try reflexivity; now rewrite K.
Qed.


(** Two removals in a row are the removal of what either dooms, when the
    second test does not see what the first removal changed. *)
Lemma removeAll_twice (d1 d2 : node -> bool) (n : node) :
  (forall k, d1 (removeAll d2 k) = d1 k) ->
  removeAll d1 (removeAll d2 n) = removeAll (fun k => d2 k || d1 k) n.
Proof.
  intros Hstable. induction n as [kids H|t a l kids H|v l|d l] using node_induction;
    try reflexivity; cbn [removeAll]; f_equal.
  all: induction kids as [|k kids IH]; [reflexivity|];
    apply Forall_cons_iff in H as [Hk Hkids]; cbn [flat_map];
    rewrite flat_map_app, (IH Hkids); destruct (d2 k); [reflexivity|];
    cbn [flat_map orb]; rewrite Hstable, Hk, app_nil_r; reflexivity.
Qed.

(** A node reached from a child is a descendant. *)
Lemma descendant_below (x k n : node) :
  In k (childNodes_of n) -> occurs x k -> In x (descendants n).
Proof.
  intros Hk Hx. unfold descendants. apply in_flat_map. now exists k.
Qed.

(** What lies below a cleaned node: exactly the cleaned copies of the nodes
    kept below the original. *)
Lemma kept_descendant (doomed : node -> bool) (p s : node) :
  kept_below doomed p s -> In (removeAll doomed s) (descendants (removeAll doomed p)).
Proof.
  induction 1 as [p s Hs Hd|p k s Hk Hd _ IH].
  - apply child_descendant, removeAll_child. exists s. now repeat split.
  - apply descendant_below with (k := removeAll doomed k).
    + apply removeAll_child. exists k. now repeat split.
    + now apply occurs_descendant.
Qed.

Lemma descendant_kept (doomed : node -> bool) (p x : node) :
  In x (descendants (removeAll doomed p)) ->
  exists y, kept_below doomed p y /\ x = removeAll doomed y.
Proof.
  revert x. induction p using node_induction; intros x Hx.
  3,4: destruct Hx.
  all: unfold descendants in Hx; apply in_flat_map in Hx as (k' & Hk' & Hx);
    apply removeAll_child in Hk' as (k & Hk & Hd & ->);
    rewrite queryAll_all in Hx; destruct Hx as [<-|Hx].
  all: try (exists k; split; [now apply kept_child | reflexivity]).
  all: rewrite Forall_forall in H; destruct (H k Hk x Hx) as (y & Hy & ->);
    exists y; split; [now apply kept_deeper with (k := k) | reflexivity].
Qed.

Lemma descendants_kept_iff (doomed : node -> bool) (p x : node) :
  In x (descendants (removeAll doomed p)) <->
  exists y, kept_below doomed p y /\ x = removeAll doomed y.
Proof.
  split; [apply descendant_kept|]. intros (y & Hy & ->). now apply kept_descendant.
Qed.

(** ** The body extractor *)

Section BodyExtractor.

Context {host : Host}.

Lemma removes_script_false (n : node) :
  removes_script n = false <-> external_script n.
Proof.
  unfold removes_script, external_script. rewrite or_else_empty.
  destruct (getAttribute n "src") as [src|].
  - destruct (truthy src) eqn:T.
    + rewrite not_absolute_false. apply truthy_true in T. split.
      * intros H. exists src. split; [reflexivity | split; assumption].
      * intros (s & Hs & _ & H). now injection Hs as <-.
    + apply truthy_false in T. split; [discriminate|].
      intros (s & Hs & Hne & _). congruence.
  - simpl. split; [discriminate | intros (s & Hs & _); discriminate].
Qed.

Lemma script_not_link (n : node) : scriptsPred n = true -> linkPred n = false.
Proof.
  unfold scriptsPred, linkPred, hasTagName. destruct n; try discriminate.
  intros H. apply String.eqb_eq in H. rewrite H. reflexivity.
Qed.

Lemma removes_script_stable (doomed : node -> bool) (n : node) :
  scriptsPred (removeAll doomed n) && removes_script (removeAll doomed n)
  = scriptsPred n && removes_script n.
Proof.
  unfold scriptsPred, removes_script.
  now rewrite removeAll_tag, removeAll_attribute.
Qed.

(** Below the node left by [scripts.forEach] every script is external, and
    below the node left by both loops there is no link either. *)
Lemma without_scripts_clean (n x : node) :
  In x (descendants (without_scripts n)) ->
  scriptsPred x = true -> external_script x.
Proof.
  intros Hx Hs. apply descendants_removeAll in Hx as (y & _ & Hd & ->).
  rewrite <- removes_script_stable with (doomed := fun k => scriptsPred k && removes_script k) in Hd.
  rewrite Hs in Hd. now apply removes_script_false.
Qed.

Lemma without_links_clean (n x : node) :
  In x (descendants (without_links (without_scripts n))) ->
  linkPred x = false /\ (scriptsPred x = true -> external_script x).
Proof.
  intros Hx. apply descendants_removeAll in Hx as (y & Hy & Hd & ->).
  unfold linkPred, scriptsPred in *. rewrite !removeAll_tag. split; [exact Hd|].
  intros Hs. pose proof (without_scripts_clean n y Hy Hs) as (src & Ha & Hr).
  exists src. now rewrite removeAll_attribute.
Qed.

Lemma text_has_no_component (kids : list node) :
  (forall x, In x kids -> exists v loc, x = TextNode v loc) ->
  first_match (fun x => query x domPred) kids = None.
Proof.
  induction kids as [|x kids IH]; intros Hl; [reflexivity|].
  destruct (Hl x (or_introl eq_refl)) as (v & loc & ->). simpl.
  apply IH. intros y Hy. apply Hl. now right.
Qed.

Lemma first_match_parent (parent : node) (u : bool) (kids : list node) :
  Forall (fun k => forall u', locates_parent u' k (childNodes_of k) (parentOfFirst u' k)) kids ->
  (forall k, In k kids -> In k (childNodes_of parent)) ->
  locates_parent u parent kids
    (first_match
       (fun k => if domPred k then Some (parent, u)
                 else parentOfFirst (u || (scriptsPred k && removes_script k)) k)
       kids).
Proof.
  induction kids as [|k kids IH]; intros Hall Hsub; [reflexivity|].
  apply Forall_cons_iff in Hall as [Hk Hkids].
  specialize (IH Hkids (fun k' Hk' => Hsub k' (or_intror Hk'))).
  assert (Hchild : In k (childNodes_of parent)) by (apply Hsub; now left).
  cbn [first_match]. destruct (domPred k) eqn:Dk.
  - exists k. cbn [first_match]. rewrite query_unfold, Dk.
    split; [reflexivity|]. split; [exact Hchild|]. split; [apply occurs_refl | now left].
  - specialize (Hk (u || scriptsPred k && removes_script k)%bool).
    destruct (parentOfFirst (u || scriptsPred k && removes_script k) k) as [[p u']|].
    + destruct Hk as (d & Hq & Hd & Hp & Hflag). exists d.
      cbn [first_match]. rewrite query_unfold, Dk, Hq.
      split; [reflexivity|]. split; [exact Hd|].
      split; [eapply occurs_child; [exact Hchild | exact Hp]|].
      destruct Hflag as [->|(s & Hs & Hss & Ht)].
      * destruct (scriptsPred k && removes_script k)%bool eqn:Es.
        -- right. exists k. split; [eapply occurs_child; [exact Hchild | apply occurs_refl]|].
           apply andb_true_iff in Es as [Es _]. split; [exact Es|]. intros Ht.
           rewrite (text_has_no_component _ Ht) in Hq. discriminate.
        -- left. now rewrite orb_false_r.
      * right. exists s. split; [eapply occurs_child; [exact Hchild | exact Hs]|now split].
    + unfold locates_parent in Hk |- *. cbn [first_match].
      rewrite query_unfold, Dk, Hk. exact IH.
Qed.

(** [parentOfFirst] finds the parent of the node that [query] finds. *)
Lemma parentOfFirst_query (n : node) (u : bool) :
  locates_parent u n (childNodes_of n) (parentOfFirst u n).
Proof.
  revert u. induction n as [kids H|t a l kids H|v l|d l] using node_induction;
    intros u; try reflexivity.
  - apply (first_match_parent (Document kids) u kids H). now intros k Hk.
  - apply (first_match_parent (Element t a l kids) u kids H). now intros k Hk.
Qed.

Lemma query_document (kids : list node) :
  query (Document kids) domPred = first_match (fun k => query k domPred) kids.
Proof. reflexivity. Qed.

(** The node that [domModule] serializes: the cleaned document when there
    is no component, the cleaned parent of the component otherwise. *)
Lemma domModule_html_shape (kids : list node) :
  let doc := Document kids in
  (query doc domPred = None
   /\ domModule_html doc = without_links (without_scripts doc))
  \/ (exists d parentNode,
        query doc domPred = Some d
        /\ occurs parentNode doc /\ In d (childNodes_of parentNode)
        /\ (domModule_html doc = without_links (without_scripts parentNode)
            \/ ((exists s, occurs s doc /\ scriptsPred s = true /\ ~ text_only s)
                /\ domModule_html doc = without_scripts parentNode))).
Proof.
  intros doc. pose proof (parentOfFirst_query doc false) as L.
  unfold domModule_html. subst doc. rewrite query_document.
  cbn [childNodes_of] in L.
  destruct (parentOfFirst false (Document kids)) as [[p u']|].
  - right. destruct L as (d & Hq & Hd & Hp & Hflag). exists d, p.
    split; [exact Hq|]. split; [exact Hp|]. split; [exact Hd|].
    destruct u'; [right | now left].
    destruct Hflag as [Hu|Hs]; [discriminate | now split].
  - left. now split.
Qed.

(** The two loops of [domModule], run on a node that both reach, take out
    what [removed] tells. *)
Lemma removeAll_both (n : node) :
  without_links (without_scripts n) = removeAll removed n.
Proof.
  unfold without_links, without_scripts.
  rewrite removeAll_twice; [reflexivity|].
  intros k. unfold linkPred. apply removeAll_tag.
Qed.

(** The node that [domModule] serializes is a node of the document, the
    parent of the component when there is one and the document otherwise,
    without the nodes the loops took out of it: the scripts that are not
    external and the links, or the scripts only when that node was detached
    with a script (which takes a script with a child that is not text). *)
Lemma domModule_html_origin (kids : list node) :
  let doc := Document kids in
  exists origin doomed,
    occurs origin doc
    /\ (query doc domPred = None -> origin = doc)
    /\ (forall d, query doc domPred = Some d -> In d (childNodes_of origin))
    /\ ((forall k, doomed k = removed k)
        \/ ((forall k, doomed k = scriptsPred k && removes_script k)
            /\ exists b, occurs b doc /\ scriptsPred b = true /\ ~ text_only b))
    /\ domModule_html doc = removeAll doomed origin.
Proof.
  intros doc.
  destruct (domModule_html_shape kids) as [[Hq Hh]|(d & p & Hq & Hp & Hd & Hh)];
    fold doc in Hq, Hh.
  - exists doc, removed. split; [apply occurs_refl|]. split; [reflexivity|].
    split; [intros d Hd; congruence|]. split; [now left|].
    now rewrite Hh, removeAll_both.
  - fold doc in Hp. destruct Hh as [Hh|[Hb Hh]].
    + exists p, removed. split; [exact Hp|]. split; [congruence|].
      split; [intros d' Hd'; congruence|]. split; [now left|].
      now rewrite Hh, removeAll_both.
    + exists p, (fun k => scriptsPred k && removes_script k). split; [exact Hp|].
      split; [congruence|]. split; [intros d' Hd'; congruence|].
      split; [right; now split | exact Hh].
Qed.

(** The line count of [domModule] is the number of line feeds of its frame:
    what it wrote, less the line feeds of the markup itself. *)
Lemma domModule_line_feeds (this : ProcessHtml) :
  line_feeds (source (domModule this)) =
  lineCount (domModule this)
  + line_feeds (minify (parse5_serialize (domModule_html (document_of this)))).
Proof.
  unfold domModule. fold (document_of this).
  set (minimized := minify _).
  destruct (truthy minimized) eqn:T.
  - destruct (query _ domPred); cbn [source lineCount];
      rewrite !line_feeds_append, line_feeds_escape_quotes;
      cbn -[Z.add]; lia.
  - apply truthy_false in T. now rewrite T.
Qed.

(** [domModule] in general.  It serializes the parent of the component
    found by [query], or the document when there is none, in the state the
    two loops leave it in; below that node every script is external, and
    when every script of the document holds only text no link is left
    either.  The minified text, when not empty, is emitted once, quotes
    escaped, in a [register] call if a component was found and in a [toBody]
    call otherwise, for 3 lines; an empty minified text gives the empty text
    and 0 lines.  (The parser does build scripts with element children,
    inside [svg] for one: see [domModule_keeps_detached_link].) *)
Lemma domModule_fragment (this : ProcessHtml) :
  let doc := document_of this in
  let html := domModule_html doc in
  let minimized := minify (parse5_serialize html) in
  let scripts_hold_text :=
    forall s, occurs s doc -> scriptsPred s = true -> text_only s in
  ((query doc domPred = None -> html = without_links (without_scripts doc))
   /\ (forall d, query doc domPred = Some d ->
         exists parentNode,
           occurs parentNode doc /\ In d (childNodes_of parentNode)
           /\ (html = without_links (without_scripts parentNode)
               \/ (~ scripts_hold_text /\ html = without_scripts parentNode))))
  /\ (forall x, In x (descendants html) ->
        (scriptsPred x = true -> external_script x)
        /\ (scripts_hold_text -> linkPred x = false))
  /\ (minimized <> "" ->
      (query doc domPred <> None ->
       domModule this =
       {| source :=
            nl ++ "const RegisterHtmlTemplate = require('polymer-webpack-loader/register-html-template');"
            ++ nl ++ "RegisterHtmlTemplate.register('" ++ escape_quotes minimized ++ "');" ++ nl;
          lineCount := 3 |})
      /\ (query doc domPred = None ->
          domModule this =
          {| source :=
               nl ++ "const RegisterHtmlTemplate = require('polymer-webpack-loader/register-html-template');"
               ++ nl ++ "RegisterHtmlTemplate.toBody('" ++ escape_quotes minimized ++ "');" ++ nl;
             lineCount := 3 |}))
  /\ (minimized = "" -> domModule this = {| source := ""; lineCount := 0 |}).
Proof.
  intros doc html minimized scripts_hold_text.
  assert (Hbad : (exists s, occurs s doc /\ scriptsPred s = true /\ ~ text_only s) ->
                 ~ scripts_hold_text).
  { intros (s & Hs & Hss & Ht) Hall. exact (Ht (Hall s Hs Hss)). }
  pose proof (domModule_html_shape (parse5_parse (content this))) as Shape.
  cbv zeta in Shape. fold (document_of this) in Shape. fold doc in Shape. fold html in Shape.
  split; [split|split; [|split]].
  - intros Hq. destruct Shape as [[_ H]|(d & p & Hq' & _)]; [exact H | congruence].
  - intros d Hq. destruct Shape as [[Hn _]|(d' & p & Hq' & Hp & Hd & Hh)]; [congruence|].
    rewrite Hq in Hq'. injection Hq' as <-. exists p.
    split; [exact Hp|]. split; [exact Hd|].
    destruct Hh as [Hh|[Hs Hh]]; [now left | right]. split; [now apply Hbad | exact Hh].
  - intros x Hx.
    destruct Shape as [[_ Hh]|(d & p & _ & _ & _ & [Hh|[Hs Hh]])]; rewrite Hh in Hx.
    + destruct (without_links_clean _ _ Hx) as [H1 H2]. split; [exact H2 | now intros _].
    + destruct (without_links_clean _ _ Hx) as [H1 H2]. split; [exact H2 | now intros _].
    + split; [now apply (without_scripts_clean p) |].
      intros Hall. exfalso. exact (Hbad Hs Hall).
  - intros Hne. apply truthy_true in Hne. unfold domModule.
    fold (document_of this). fold doc. fold html. fold minimized. rewrite Hne.
    split.
    + intros Hq. destruct (query doc domPred); [reflexivity | congruence].
    + intros ->. reflexivity.
  - intros He. apply truthy_false in He. unfold domModule.
    fold (document_of this). fold doc. fold html. fold minimized. now rewrite He.
Qed.

(** C5, as the code has it.  A script with an absolute [src] is not removed
    by [domModule]: it stays among the children of its parent, untouched
    when its own children are text.  The node that is serialized is a node
    [origin] of the document, the parent of the component, or the document
    when there is no component, without the nodes the loops took out of it;
    the nodes of the serialized markup are exactly the copies of the nodes
    below [origin] that no removed node separates from it.  So the script
    is in the markup exactly when it lies below [origin] and outside every
    removed node.  [scripts] leaves its state as it was, so no import is
    emitted for it, and [links] never visits it. *)
Theorem external_script_kept (this : ProcessHtml) (st : ScriptsState) (s : node) :
  scriptsPred s = true ->
  external_script s ->
  let doc := document_of this in
  let html := domModule_html doc in
  (forall parentNode,
      In s (childNodes_of parentNode) ->
      In (without_links (without_scripts s))
         (childNodes_of (without_links (without_scripts parentNode))))
  /\ (text_only s -> without_links (without_scripts s) = s)
  /\ (query doc domPred = None ->
      In s (childNodes_of doc) ->
      In (without_links (without_scripts s)) (childNodes_of html))
  /\ (exists origin doomed,
        occurs origin doc
        /\ (query doc domPred = None -> origin = doc)
        /\ (forall d, query doc domPred = Some d -> In d (childNodes_of origin))
        /\ ((forall k, doomed k = removed k)
            \/ ((forall k, doomed k = scriptsPred k && removes_script k)
                /\ exists b, occurs b doc /\ scriptsPred b = true /\ ~ text_only b))
        /\ html = removeAll doomed origin
        /\ doomed s = false
        /\ (text_only s -> removeAll doomed s = s)
        /\ (kept_below doomed origin s -> In (removeAll doomed s) (descendants html))
        /\ (forall x, In x (descendants html) <->
                      exists y, kept_below doomed origin y /\ x = removeAll doomed y))
  /\ scripts_body this st s = Ok st
  /\ (forall root, ~ In s (queryAll root linkPred)).
Proof.
  intros Hs He doc html.
  assert (Hkeep : (scriptsPred s && removes_script s)%bool = false).
  { apply removes_script_false in He. rewrite He. apply andb_false_r. }
  assert (Hlink : linkPred s = false) by now apply script_not_link.
  assert (Hchild : forall parentNode,
             In s (childNodes_of parentNode) ->
             In (without_links (without_scripts s))
                (childNodes_of (without_links (without_scripts parentNode)))).
  { intros p Hin. unfold without_links at 2. apply removeAll_child.
    exists (without_scripts s). split; [|split; [|reflexivity]].
    - unfold without_scripts at 2. apply removeAll_child. exists s. now repeat split.
    - unfold linkPred, without_scripts. now rewrite removeAll_tag. }
  split; [exact Hchild|]. split; [|split; [|split; [|split]]].
  - intros Ht. unfold without_links, without_scripts.
    rewrite (removeAll_text_only _ s); [|reflexivity | exact Ht].
    apply removeAll_text_only; [reflexivity | exact Ht].
  - intros Hq Hin. subst html doc. unfold document_of in *.
    destruct (domModule_html_shape (parse5_parse (content this)))
      as [[_ Hh]|(d & p & Hq' & _)]; [|congruence].
    rewrite Hh. now apply Hchild.
  - destruct (domModule_html_origin (parse5_parse (content this)))
      as (origin & doomed & Ho & Hnone & Hsome & Hdoomed & Hh).
    fold (document_of this) in Ho, Hnone, Hsome, Hdoomed, Hh.
    fold doc in Ho, Hnone, Hsome, Hdoomed, Hh. fold html in Hh.
    exists origin, doomed.
    assert (Hds : doomed s = false).
    { destruct Hdoomed as [Hd|[Hd _]]; rewrite Hd; [|exact Hkeep].
      unfold removed. now rewrite Hkeep, Hlink. }
    assert (Htext : forall v l, doomed (TextNode v l) = false)
      by (intros v l; destruct Hdoomed as [Hd|[Hd _]]; rewrite Hd; reflexivity).
    split; [exact Ho|]. split; [exact Hnone|]. split; [exact Hsome|].
    split; [exact Hdoomed|]. split; [exact Hh|]. split; [exact Hds|].
    split; [intros Ht; now apply removeAll_text_only|].
    rewrite Hh. split; [apply kept_descendant | intros x; apply descendants_kept_iff].
  - now apply scripts_body_external.
  - intros root Hin. apply queryAll_sound in Hin as [Hp _]. congruence.
Qed.

(** An inline script without children: the tokenizer may accept its text,
    the read of [childNodes[0].__location] then fails. *)
Lemma scripts_body_no_child (this : ProcessHtml) (st : ScriptsState) (n : node)
      (tokens : list espree.token) :
  inline_script n ->
  espree_tokenize (parse5_serialize n) = Ok tokens ->
  childNodes_of n = [] ->
  scripts_body this st n = Throw TypeError.
Proof.
  intros Hi Htok Hkids.
  now rewrite (scripts_body_inline this st n Hi), Htok, Hkids.
Qed.

(** What can go wrong in the body of the loop of [scripts] once [url.parse]
    has returned and [addMapping] has accepted the mappings: only an inline
    script fails, either in the tokenizer or on a location that is not
    there. *)
Lemma scripts_body_failure (this : ProcessHtml) (st : ScriptsState) (n : node) (e : error) :
  scripts_body this st n = Throw e ->
  inline_script n
  /\ (espree_tokenize (parse5_serialize n) = Throw e
      \/ (e = TypeError
          /\ (nth_error (childNodes_of n) 0 = None
              \/ (exists child, nth_error (childNodes_of n) 0 = Some child
                                /\ location_of child = None)
              \/ element_location_of n = None
              \/ (exists el, element_location_of n = Some el
                             /\ (endTag el = None \/ startTag el = None))))).
Proof.
  destruct (script_classes n) as ([He|[Hl|Hi]] & _).
  - now rewrite (scripts_body_external this st n He).
  - destruct Hl as (src & Hattr & Hrest) eqn:E.
    now rewrite (scripts_body_local this st n src Hattr Hl).
  - rewrite (scripts_body_inline this st n Hi). intros H. split; [exact Hi|].
    destruct (espree_tokenize (parse5_serialize n)) as [tokens|e'];
      cbn [JS.bind] in H; [right | left; injection H as <-; reflexivity].
    destruct (nth_error (childNodes_of n) 0) as [child|];
      cbn [JS.bind JS.deref] in H; [|injection H as <-; split; [reflexivity | now left]].
    destruct (location_of child) as [c|] eqn:Ec;
      cbn [JS.bind JS.deref] in H;
      [|injection H as <-; split; [reflexivity | right; left; now exists child]].
    destruct (element_location_of n) as [el|];
      cbn [JS.bind JS.deref] in H;
      [|injection H as <-; split; [reflexivity | right; right; now left]].
    destruct (endTag el) as [en|] eqn:Een; cbn [JS.bind JS.deref] in H;
      [|injection H as <-; split; [reflexivity |];
        right; right; right; exists el; split; [reflexivity | now left]].
    destruct (startTag el) as [sn|] eqn:Esn; cbn [JS.bind JS.deref] in H;
      [discriminate|].
    injection H as <-. split; [reflexivity|].
    right. right. right. exists el. split; [reflexivity | now right].
Qed.

(** C10.  A script whose [src] is the empty string is inline: [domModule]
    removes it, so no such script is left below the serialized node, and
    [scripts] (in both builds) emits its text and no import, as it does for
    the same element without the attribute. *)
Theorem empty_src_is_inline (this : ProcessHtml) (st : ScriptsState) (text : string)
        (n : node) :
  getAttribute n "src" = Some "" ->
  let bare := without_attribute "src" n in
  (inline_script n /\ inline_script bare /\ getAttribute bare "src" = None)
  /\ (removes_script n = true /\ removes_script bare = true)
  /\ (forall root x, In x (descendants (without_scripts root)) ->
                     scriptsPred x = true -> getAttribute x "src" <> Some "")
  /\ (parse5_serialize bare = parse5_serialize n ->
      scripts_body this st bare = scripts_body this st n)
  /\ (forall st', scripts_body this st n = Ok st' ->
                  st_source st' = st_source st ++ nl ++ parse5_serialize n ++ nl)
  /\ Legacy.scripts_body this text n = text ++ nl ++ parse5_serialize n ++ nl.
Proof.
  intros Hattr bare.
  assert (Hi : inline_script n) by now right.
  assert (Hbare : getAttribute bare "src" = None).
  { subst bare. destruct n as [| t a l kids | |]; try reflexivity. simpl in *.
    clear Hattr Hi. induction a as [|x a IH]; simpl; [reflexivity|].
    destruct (attr_name x =? "src") eqn:E; simpl; [exact IH | now rewrite E]. }
  assert (Hib : inline_script bare) by now left.
  split; [now repeat split|]. split; [|split; [|split; [|split]]].
  - unfold removes_script. now rewrite Hattr, Hbare.
  - intros root x Hx Hs Hsrc. pose proof (without_scripts_clean root x Hx Hs) as (src & Ha & Hne & _).
    congruence.
  - intros Hser. rewrite (scripts_body_inline this st bare Hib), (scripts_body_inline this st n Hi).
    rewrite Hser. subst bare. destruct n; reflexivity.
  - intros st' H. exact (scripts_body_inline_text this st st' n Hi H).
  - unfold Legacy.scripts_body. now rewrite Hattr.
Qed.

End BodyExtractor.

(** ** The two builds *)

Section Builds.

Context {host : Host}.

(** Where [scripts] returns, its text is the text of the earlier build. *)
Lemma scripts_body_legacy (this : ProcessHtml) (st st' : ScriptsState) (n : node) :
  scripts_body this st n = Ok st' ->
  st_source st' = Legacy.scripts_body this (st_source st) n.
Proof.
  unfold Legacy.scripts_body.
  destruct (script_classes n) as ([He|[Hl|Hi]] & _).
  - rewrite (scripts_body_external this st n He). intros H. injection H as <-.
    destruct He as (src & Hattr & Hne & Ha). rewrite Hattr, or_else_empty.
    apply truthy_true in Hne. apply not_absolute_false in Ha. now rewrite Hne, Ha.
  - destruct Hl as (src & Hattr & Hne & Ha) eqn:E.
    rewrite (scripts_body_local this st n src Hattr Hl). intros H. injection H as <-.
    rewrite Hattr, or_else_empty.
    rewrite (proj2 (truthy_true src) Hne), (proj2 (not_absolute_true src) Ha).
    reflexivity.
  - intros H. rewrite (scripts_body_inline_text this st st' n Hi H).
    apply src_of_inline in Hi. now rewrite Hi.
Qed.

Lemma scripts_legacy (this : ProcessHtml) (r : RetVal) :
  scripts this "" 0 = Ok r -> ret_source r = Legacy.scripts this.
Proof.
  unfold scripts, Legacy.scripts.
  set (nodes := queryAll _ scriptsPred).
  set (st0 := {| st_source := ""; st_lineOffset := 0; st_sourceMapGenerator := None |}).
  change (fold_left (Legacy.scripts_body this) nodes "")
    with (fold_left (Legacy.scripts_body this) nodes (st_source st0)).
  clearbody st0.
  destruct (forEach (scripts_body this) nodes st0) as [st|] eqn:E; cbn [JS.bind];
    [|discriminate].
  intros H.
  assert (Hs : ret_source r = st_source st)
    by (destruct (st_sourceMapGenerator st); injection H as <-; reflexivity).
  rewrite Hs. clear H Hs r. revert st0 E.
  induction nodes as [|n nodes IH]; intros st0; simpl.
  - intros H. now injection H as <-.
  - destruct (scripts_body this st0 n) as [st1|] eqn:E1; cbn [JS.bind]; [|discriminate].
    intros H. rewrite (IH st1 H). now rewrite (scripts_body_legacy this st0 st1 n E1).
Qed.

(** Without [ignoreLinksFromPartialMatches] the two builds import the same
    links. *)
Lemma links_legacy (this : ProcessHtml) :
  or_empty (ignoreLinksFromPartialMatches (options this)) = [] ->
  source (links this) = Legacy.links this.
Proof.
  intros Hp. unfold links, Legacy.links.
  set (nodes := queryAll _ linkPred).
  set (acc := {| source := ""; lineCount := 0 |}).
  change (fold_left (Legacy.links_body this) nodes "")
    with (fold_left (Legacy.links_body this) nodes (source acc)).
  clearbody acc. revert acc.
  induction nodes as [|n nodes IH]; intros acc; simpl; [reflexivity|].
  rewrite IH. f_equal. unfold links_body, Legacy.links_body. rewrite Hp. simpl.
  destruct (truthy _); [|reflexivity].
  rewrite andb_true_r. now destruct (_ <? 0)%Z.
Qed.

End Builds.

(** ** Worked examples *)

(** The component of the specification's end-to-end example, loaded from
    [/p/f.html]: the import of the link, the registration of the markup
    without its inline script, the text of the script; five mappings on
    generated line 6, the identifier carrying its name. *)
Example process_component :
  exists generated,
    @process (Fixture.host Fixture.component_doc) (Fixture.this_at "/p/f.html" no_options)
    = Ok {| ret_source :=
              nl ++ "import '/p/a.html';" ++ nl
              ++ nl ++ register_require ++ nl
              ++ "RegisterHtmlTemplate.register('<dom-module id="
              ++ Fixture.dquote ++ "x" ++ Fixture.dquote ++ "></dom-module>');" ++ nl
              ++ nl ++ "var a=1;" ++ nl;
            ret_sourceMap := Some generated |}
    /\ map (fun m => (sourceMap.line (sourceMap.generated m),
                      sourceMap.column (sourceMap.original m),
                      sourceMap.name m))
           (sourceMap.raw_mappings generated)
       = [(6, 61, None); (6, 65, Some "a"); (6, 66, None); (6, 67, None); (6, 68, None)].
Proof. eexists. split; reflexivity. Qed.

(** With [a.] in [ignoreLinksFromPartialMatches] the link of the example is
    dropped by [links]; the earlier build, which does not read that option,
    still imports it. *)
Example links_builds_differ :
  @links (Fixture.host Fixture.component_doc) (Fixture.this_at "/p/f.html" Fixture.ignore_a)
  = {| source := ""; lineCount := 0 |}
  /\ @Legacy.links (Fixture.host Fixture.component_doc)
       (Fixture.this_at "/p/f.html" Fixture.ignore_a)
     = nl ++ "import '/p/a.html';" ++ nl.
Proof. split; reflexivity. Qed.

(** C4 fails on [<svg><script><link rel="import" href="a.html"/><dom-module
    id="x"></dom-module></script></svg>].  Inside [svg] the parser gives the
    script its link and the component as children.  The script has no
    [src], so the first loop of [domModule] detaches it; the second loop
    queries the links from the document and no longer reaches the link
    below the script.  The parent of the component is that script, so the
    link is serialized and registered with the template, while [links]
    imports the same link. *)
Theorem domModule_keeps_detached_link :
  query (Document Fixture.svg_script_doc) domPred <> None
  /\ linkPred Fixture.svg_link = true
  /\ In Fixture.svg_link
        (childNodes_of (@domModule_html (Fixture.host Fixture.svg_script_doc)
                          (Document Fixture.svg_script_doc)))
  /\ @domModule (Fixture.host Fixture.svg_script_doc) (Fixture.this_at "/p/f.html" no_options)
     = {| source :=
            nl ++ register_require ++ nl
            ++ "RegisterHtmlTemplate.register('<link rel=" ++ Fixture.dquote ++ "import"
            ++ Fixture.dquote ++ " href=" ++ Fixture.dquote ++ "a.html" ++ Fixture.dquote
            ++ "><dom-module id=" ++ Fixture.dquote ++ "x" ++ Fixture.dquote
            ++ "></dom-module>');" ++ nl;
          lineCount := 3 |}
  /\ @links (Fixture.host Fixture.svg_script_doc) (Fixture.this_at "/p/f.html" no_options)
     = {| source := nl ++ "import '/p/a.html';" ++ nl; lineCount := 2 |}.
Proof.
  split; [discriminate|]. split; [reflexivity|]. split; [now left|].
  split; reflexivity.
Qed.

(** C8 fails as stated on [<script>// nothing yet</script>]: the script is
    inline and the result has a [sourceMap], but no token was mapped, so the
    map lists no source and holds no content: the text of the file is not in
    it. *)
Lemma scripts_map_without_content :
  In Fixture.comment_script
     (queryAll (Document Fixture.comment_script_doc) scriptsPred)
  /\ getAttribute Fixture.comment_script "src" = None
  /\ @scripts (Fixture.host Fixture.comment_script_doc)
       (Fixture.this_at "/p/f.html" no_options) "" 0
     = Ok {| ret_source := nl ++ "// nothing yet" ++ nl;
             ret_sourceMap :=
               Some {| sourceMap.sources := [];
                       sourceMap.names := [];
                       sourceMap.raw_mappings := [];
                       sourceMap.sourcesContent := [] |} |}.
Proof. split; [now left|]. split; reflexivity. Qed.

(** C8 as amended, on the component of the example: its inline script has
    tokens, so the map lists the file and holds its text. *)
Lemma scripts_sourceMap_presence_witness :
  exists r m,
    @scripts (Fixture.host Fixture.component_doc)
      (Fixture.this_at "/p/f.html" no_options) "" 0 = Ok r
    /\ ret_sourceMap r = Some m
    /\ sourceMap.sources m = ["/p/f.html"]
    /\ sourceMap.sourcesContent m = [Some "<html>"].
Proof.
  pose (H := Fixture.host Fixture.component_doc).
  pose (this := Fixture.this_at "/p/f.html" no_options).
  destruct (@scripts H this "" 0) as [r|e] eqn:E; [|discriminate E].
  pose proof (@scripts_sourceMap_presence H this "" 0 r E) as [K1 K2].
  destruct (ret_sourceMap r) as [m|] eqn:Em.
  - exists r, m. split; [exact E|]. split; [exact Em|].
    apply (proj1 (K2 m eq_refl)). vm_compute. discriminate.
  - exfalso. apply (proj2 K1); [|reflexivity].
    exists Fixture.var_script. split; [vm_compute; now left | now left].
Defined.

(** C1, on the script of the example, five lines into the module. *)
Lemma scripts_body_inline_mappings_witness :
  exists added,
    script_mappings "/p/f.html" {| line := 1; col := 61 |} 5 Fixture.var_tokens added
    /\ @scripts_body (Fixture.host Fixture.component_doc)
         (Fixture.this_at "/p/f.html" no_options) Fixture.after_five_lines Fixture.var_script
       = Ok {| st_source := "" ++ nl ++ "var a=1;" ++ nl;
               st_lineOffset := 5 + 2 + (1 - 1);
               st_sourceMapGenerator :=
                 Some {| sourceMap.mappings := ([] ++ added)%list;
                         sourceMap.sourcesContents := [] |} |}.
Proof.
  exact (@scripts_body_inline_mappings (Fixture.host Fixture.component_doc)
           (Fixture.this_at "/p/f.html" no_options) Fixture.after_five_lines
           Fixture.var_script Fixture.var_tokens
           (TextNode "var a=1;" (Fixture.at_ 1 61)) {| line := 1; col := 61 |}
           {| el_line := 1; el_col := 53;
              startTag := Fixture.at_ 1 53; endTag := Fixture.at_ 1 69 |}
           {| line := 1; col := 53 |} {| line := 1; col := 69 |}
           (or_introl eq_refl) eq_refl eq_refl eq_refl eq_refl eq_refl eq_refl).
Defined.

(** C6, on the paths of the specification: [x/y.html] linked from
    [/proj/src/foo.html], with and without [x/] in [ignorePathReWrite]. *)
Lemma links_import_path_witness :
  @link_path (Fixture.host [])
    (Fixture.this_at "/proj/src/foo.html"
       {| ignoreLinks := None; ignoreLinksFromPartialMatches := None;
          ignorePathReWrite := Some ["x/"] |})
    "x/y.html" = "x/y.html"
  /\ @link_path (Fixture.host []) (Fixture.this_at "/proj/src/foo.html" no_options)
       "x/y.html" = "/proj/src/x/y.html".
Proof.
  pose (linkNode := Element "link" [ {| attr_name := "href"; attr_value := "x/y.html" |} ]
                            None []).
  pose (acc := {| source := ""; lineCount := 0 |}).
  assert (Hne : "x/y.html" <> "") by discriminate.
  split.
  - apply (proj1 (@links_import_path (Fixture.host []) _ acc linkNode "x/y.html" eq_refl Hne)).
    exists "x/". split; [now left | exists "", "y.html"; reflexivity].
  - apply (proj1 (proj2 (@links_import_path (Fixture.host [])
                           (Fixture.this_at "/proj/src/foo.html" no_options)
                           acc linkNode "x/y.html" eq_refl Hne))).
    intros part [].
Defined.

(** C5 fails as stated: with the component wrapped in a [div] and a script
    from a CDN next to the [div], the script is external and in the
    document, a component is found, and the node that is serialized (the
    [div]) does not contain the script; the registered text does not
    mention it. *)
Lemma external_script_outside_template :
  @external_script (Fixture.host Fixture.wrapped_component_doc) Fixture.cdn_script
  /\ In Fixture.cdn_script (childNodes_of (Document Fixture.wrapped_component_doc))
  /\ query (Document Fixture.wrapped_component_doc) domPred <> None
  /\ ~ occurs Fixture.cdn_script
         (@domModule_html (Fixture.host Fixture.wrapped_component_doc)
            (Document Fixture.wrapped_component_doc))
  /\ indexOf (source (@domModule (Fixture.host Fixture.wrapped_component_doc)
                        (Fixture.this_at "/p/f.html" no_options)))
             "cdn.example.com" = (-1)%Z.
Proof.
  split; [|split; [|split; [|split]]].
  - exists "https://cdn.example.com/a.js". split; [reflexivity|]. split; [discriminate|].
    split; [exists "https:"; split; [reflexivity | discriminate] | reflexivity].
  - right. now left.
  - discriminate.
  - intros H. vm_compute in H. destruct H as [H|[H|H]]; [discriminate | discriminate | exact H].
  - reflexivity.
Qed.

(** C5 as amended, on the same script placed inside a component that lies
    in the document: the document is what is serialized, nothing removed
    separates the script from it, and the script is in the markup. *)
Lemma external_script_kept_witness :
  (scriptsPred Fixture.cdn_script = true
   /\ @external_script (Fixture.host Fixture.cdn_component_doc) Fixture.cdn_script)
  /\ In Fixture.cdn_script
        (descendants (@domModule_html (Fixture.host Fixture.cdn_component_doc)
                        (Document Fixture.cdn_component_doc)))
  /\ @scripts_body (Fixture.host Fixture.cdn_component_doc)
       (Fixture.this_at "/p/f.html" no_options) Fixture.after_five_lines Fixture.cdn_script
     = Ok Fixture.after_five_lines.
Proof.
  assert (Hs : scriptsPred Fixture.cdn_script = true) by reflexivity.
  assert (He : @external_script (Fixture.host Fixture.cdn_component_doc)
                 Fixture.cdn_script).
  { exists "https://cdn.example.com/a.js". split; [reflexivity|]. split; [discriminate|].
    split; [exists "https:"; split; [reflexivity | discriminate] | reflexivity]. }
  assert (Ht : text_only Fixture.cdn_script) by (intros k []).
  pose proof (@external_script_kept (Fixture.host Fixture.cdn_component_doc)
                (Fixture.this_at "/p/f.html" no_options) Fixture.after_five_lines
                Fixture.cdn_script Hs He)
    as (_ & _ & _ & (origin & doomed & Ho & _ & Hsome & Hdoomed & _ & Hds & Hsame & Hkept & _)
        & K & _).
  split; [now split|]. split; [|exact K].
  rewrite <- (Hsame Ht). apply Hkept.
  specialize (Hsome _ eq_refl).
  destruct Ho as [<-|[<-|[<-|[]]]].
  - apply kept_deeper
      with (k := Element "dom-module" [ {| attr_name := "id"; attr_value := "x" |} ]
                         (Fixture.elem_at 1 1 (Fixture.at_ 1 72)) [ Fixture.cdn_script ]).
    + now left.
    + destruct Hdoomed as [Hd|[Hd _]]; rewrite Hd; reflexivity.
    + apply kept_child; [now left | exact Hds].
  - destruct Hsome as [H|[]]. discriminate H.
  - destruct Hsome.
Defined.

(** C9 fails on [<script></script>]: the tokenizer accepts the empty text,
    the script has no child to read a location from, and the run ends in a
    [TypeError]; the earlier build returns the two line feeds around the
    empty text. *)
Theorem empty_inline_script_throws :
  @entry (Fixture.host Fixture.empty_script_doc) (Fixture.webpack "/p/f.html")
    "<script></script>" = Throw TypeError
  /\ @Legacy.process (Fixture.host Fixture.empty_script_doc)
       (new_ProcessHtml "<script></script>" (Fixture.webpack "/p/f.html")) = nl ++ nl.
Proof. split; reflexivity. Qed.

(** C10, on [<script src="">var a=1;</script>]. *)
Lemma empty_src_is_inline_witness :
  getAttribute Fixture.empty_src_script "src" = Some ""
  /\ @removes_script (Fixture.host [Fixture.empty_src_script]) Fixture.empty_src_script = true
  /\ @Legacy.scripts_body (Fixture.host [Fixture.empty_src_script])
       (Fixture.this_at "/p/f.html" no_options) "" Fixture.empty_src_script
     = "" ++ nl ++ "var a=1;" ++ nl.
Proof.
  pose proof (@empty_src_is_inline (Fixture.host [Fixture.empty_src_script])
                (Fixture.this_at "/p/f.html" no_options) Fixture.after_five_lines ""
                Fixture.empty_src_script eq_refl) as (_ & (K2 & _) & _ & _ & _ & K6).
  split; [reflexivity|]. split; [exact K2 | exact K6].
Defined.


(** * Further properties of the passes *)

(** ** [links] as a list of imports *)

Section LinksAsImports.

Context {host : Host}.

Lemma import_count_cons (o : option string) (l : list (option string)) :
  import_count (o :: l) = import_count [o] + import_count l.
Proof.
  unfold import_count. destruct o; cbn [filter List.length]; lia.
Qed.

Lemma links_body_import (this : ProcessHtml) (acc : Fragment) (n : node) :
  exists o,
    link_import this n o
    /\ links_body this acc n =
       {| source := source acc ++ import_text o;
          lineCount := lineCount acc + 2 * import_count [o] |}.
Proof.
  assert (Hsame : acc = {| source := source acc ++ import_text None;
                           lineCount := lineCount acc + 2 * import_count [None] |}).
  { destruct acc as [text count]. cbn [source lineCount import_text].
    rewrite append_empty_r. f_equal. unfold import_count. cbn [filter List.length]. lia. }
  unfold links_body. rewrite or_else_empty.
  destruct (getAttribute n "href") as [href|] eqn:Hattr.
  - destruct (truthy href) eqn:T.
    + apply truthy_true in T. destruct (_ && _)%Z eqn:E.
      * apply link_ignored_dec in E. exists (Some (link_path this href)). split.
        -- split.
           ++ unfold link_silent. rewrite Hattr.
              intros [H|[H|(h & H & Hi)]]; try congruence.
           ++ now exists href.
        -- reflexivity.
      * apply link_ignored_iff in E. exists None. split; [|exact Hsame].
        right. right. exists href. now split.
    + apply truthy_false in T. subst href. exists None. split; [|exact Hsame].
      right. now left.
  - exists None. split; [now left | exact Hsame].
Qed.

Lemma links_fold_imports (this : ProcessHtml) (nodes : list node) (acc : Fragment) :
  exists imports,
    Forall2 (link_import this) nodes imports
    /\ fold_left (links_body this) nodes acc =
       {| source := source acc ++ concat_texts (map import_text imports);
          lineCount := lineCount acc + 2 * import_count imports |}.
Proof.
  revert acc. induction nodes as [|n nodes IH]; intros acc.
  - exists []. split; [constructor|]. destruct acc as [text count].
    cbn [fold_left source lineCount map concat_texts fold_right].
    rewrite append_empty_r. f_equal. unfold import_count. cbn [filter List.length]. lia.
  - destruct (links_body_import this acc n) as (o & Ho & Hstep).
    destruct (IH (links_body this acc n)) as (imports & Hall & Hfold).
    exists (o :: imports). split; [now constructor|].
    cbn [fold_left]. rewrite Hfold, Hstep. cbn [source lineCount map concat_texts fold_right].
    rewrite append_assoc, (import_count_cons o imports). f_equal. lia.
Qed.

(** X1.  The text of [links] is one import statement per link that is not
    silent, in document order, each for the path of its [href], and nothing
    else; the line count is twice the number of these imports. *)
Theorem links_imports (this : ProcessHtml) :
  exists imports,
    Forall2 (link_import this) (queryAll (document_of this) linkPred) imports
    /\ source (links this) = concat_texts (map import_text imports)
    /\ lineCount (links this) = 2 * import_count imports.
Proof.
  destruct (links_fold_imports this (queryAll (document_of this) linkPred)
              {| source := ""; lineCount := 0 |}) as (imports & Hall & Hfold).
  exists imports. split; [exact Hall|].
  unfold links. fold (document_of this). rewrite Hfold. cbn [source lineCount].
  split; [reflexivity | lia].
Qed.

(** The line feeds written by [links], when the paths of the document's
    links have none of their own. *)
Lemma links_line_feeds_document (this : ProcessHtml) :
  (forall n href,
      In n (queryAll (document_of this) linkPred) ->
      getAttribute n "href" = Some href ->
      line_feeds (link_path this href) = 0) ->
  line_feeds (source (links this)) = lineCount (links this).
Proof.
  intros Hpath. unfold links. fold (document_of this).
  set (acc := {| source := ""; lineCount := 0 |}).
  assert (Hacc : line_feeds (source acc) = lineCount acc) by reflexivity.
  clearbody acc. revert acc Hacc.
  induction (queryAll _ linkPred) as [|n nodes IH]; intros acc Hacc; simpl; [exact Hacc|].
  apply IH; [intros m href Hm; apply Hpath; now right|].
  unfold links_body. rewrite or_else_empty.
  destruct (getAttribute n "href") as [href|] eqn:Hattr; [|exact Hacc].
  destruct (truthy href); [|exact Hacc].
  destruct (_ && _)%Z; [|exact Hacc]. cbn [source lineCount].
  unfold import_statement.
  rewrite !line_feeds_append, (Hpath n href (or_introl eq_refl) Hattr), Hacc.
  cbn -[Z.add]. lia.
Qed.

(** X2.  [domModule] counts 0 lines exactly when it writes nothing, which is
    when the minified markup is empty, and 3 lines otherwise; its text holds
    that many line feeds besides the ones of the markup itself. *)
Theorem domModule_lines (this : ProcessHtml) :
  let minimized := minify (parse5_serialize (domModule_html (document_of this))) in
  (minimized = "" <-> source (domModule this) = "")
  /\ (minimized = "" <-> lineCount (domModule this) = 0)
  /\ (minimized <> "" <-> lineCount (domModule this) = 3)
  /\ line_feeds (source (domModule this)) = lineCount (domModule this) + line_feeds minimized.
Proof.
  intros minimized. split; [|split; [|split]].
  4: apply domModule_line_feeds.
  all: unfold domModule; fold (document_of this); fold minimized;
    destruct (truthy minimized) eqn:T;
    [apply truthy_true in T | apply truthy_false in T].
  all: try (destruct (query _ domPred); cbn [source lineCount]).
  all: cbn [source lineCount]; split; intros H; try congruence; try discriminate;
    try lia; try reflexivity.
  all: try (exfalso; apply (f_equal String.length) in H; simpl in H; discriminate).
Qed.

(** X3.  What [process] hands to [scripts] is consistent: when neither the
    paths of the document's links nor the minified markup hold a line feed,
    the line offset is the number of line feeds of the text. *)
Theorem process_seed_lines (this : ProcessHtml) :
  (forall n href,
      In n (queryAll (document_of this) linkPred) ->
      getAttribute n "href" = Some href ->
      line_feeds (link_path this href) = 0) ->
  line_feeds (minify (parse5_serialize (domModule_html (document_of this)))) = 0 ->
  line_feeds (source (links this) ++ source (domModule this))
  = lineCount (links this) + lineCount (domModule this).
Proof.
  intros Hlinks Hmin.
  rewrite line_feeds_append, (links_line_feeds_document this Hlinks),
    domModule_line_feeds, Hmin. lia.
Qed.

End LinksAsImports.

(** ** When [scripts] returns, and what it then holds *)

Section ScriptsOutcome.

Context {host : Host}.

(** What an inline script that lets the loop go on leaves behind. *)
Lemma scripts_body_inline_fields (this : ProcessHtml) (st st' : ScriptsState) (n : node) :
  inline_script n ->
  scripts_body this st n = Ok st' ->
  exists el s e,
    element_location_of n = Some el /\ startTag el = Some s /\ endTag el = Some e
    /\ st_source st' = st_source st ++ nl ++ parse5_serialize n ++ nl
    /\ st_lineOffset st' = st_lineOffset st + (2 + (line e - line s)).
Proof.
  intros Hi. rewrite (scripts_body_inline this st n Hi). intros H.
  destruct (espree_tokenize (parse5_serialize n)) as [tokens|];
    cbn [JS.bind JS.deref] in H; [|discriminate].
  destruct (nth_error (childNodes_of n) 0) as [child|];
    cbn [JS.bind JS.deref] in H; [|discriminate].
  destruct (location_of child) as [c|]; cbn [JS.bind JS.deref] in H; [|discriminate].
  destruct (element_location_of n) as [el|]; cbn [JS.bind JS.deref] in H; [|discriminate].
  destruct (endTag el) as [e|] eqn:Ee; cbn [JS.bind JS.deref] in H; [|discriminate].
  destruct (startTag el) as [s|] eqn:Es; cbn [JS.bind JS.deref] in H; [|discriminate].
  exists el, s, e. injection H as <-. now repeat split.
Qed.

Lemma scripts_body_offset (this : ProcessHtml) (st st' : ScriptsState) (n : node) :
  scripts_body this st n = Ok st' ->
  offset_tracks st ->
  (forall src, local_script n -> getAttribute n "src" = Some src ->
               line_feeds (osPath_join (osPath_dirname (currentFilePath this)) src) = 0) ->
  (forall el s e, inline_script n -> element_location_of n = Some el ->
                  startTag el = Some s -> endTag el = Some e ->
                  line_feeds (parse5_serialize n) = line e - line s) ->
  offset_tracks st'.
Proof.
  unfold offset_tracks. intros Hstep Hst Hlocal Hinline.
  destruct (script_classes n) as ([He|[Hl|Hi]] & _).
  - rewrite (scripts_body_external this st n He) in Hstep. now injection Hstep as <-.
  - destruct Hl as (src & Hattr & Hrest) eqn:E.
    rewrite (scripts_body_local this st n src Hattr Hl) in Hstep. injection Hstep as <-.
    cbn [st_source st_lineOffset].
    rewrite line_feeds_append. cbn -[Z.add].
    rewrite line_feeds_append, (Hlocal src Hl Hattr), Hst. cbn -[Z.add]. lia.
  - destruct (scripts_body_inline_fields this st st' n Hi Hstep)
      as (el & s & e & Hel & Hs & He & Hsrc & Hoff).
    rewrite Hsrc, Hoff, !line_feeds_append, (Hinline el s e Hi Hel Hs He), Hst.
    change (line_feeds nl) with 1. lia.
Qed.

(** X4.  The loop of [scripts] keeps its line offset equal to the number of
    line feeds written so far, provided the path of every local script has
    no line feed and the text of every inline script has as many line feeds
    as its end tag lies below its start tag. *)
Theorem scripts_offset_tracks (this : ProcessHtml) (nodes : list node)
        (st st' : ScriptsState) :
  forEach (scripts_body this) nodes st = Ok st' ->
  offset_tracks st ->
  (forall n src, In n nodes -> local_script n -> getAttribute n "src" = Some src ->
                 line_feeds (osPath_join (osPath_dirname (currentFilePath this)) src) = 0) ->
  (forall n el s e, In n nodes -> inline_script n -> element_location_of n = Some el ->
                    startTag el = Some s -> endTag el = Some e ->
                    line_feeds (parse5_serialize n) = line e - line s) ->
  offset_tracks st'.
Proof.
  revert st. induction nodes as [|n nodes IH]; intros st Hrun Hst Hlocal Hinline.
  - simpl in Hrun. now injection Hrun as <-.
  - cbn [forEach] in Hrun.
    destruct (scripts_body this st n) as [st1|] eqn:E; cbn [JS.bind] in Hrun; [|discriminate].
    apply (IH st1 Hrun).
    + apply (scripts_body_offset this st st1 n E Hst).
      * intros src. apply Hlocal. now left.
      * intros el s e. apply Hinline. now left.
    + intros m src Hm. apply Hlocal. now right.
    + intros m el s e Hm. apply Hinline. now right.
Qed.

(** X8.  The text [process] returns is the text of [links], then the text
    of [domModule], then the text the earlier build's [scripts] gives: an
    import per local script and the text of every inline script between
    line feeds, in document order. *)
Theorem process_text (this : ProcessHtml) (r : RetVal) :
  process this = Ok r ->
  ret_source r = source (links this) ++ source (domModule this) ++ Legacy.scripts this.
Proof.
  unfold process. rewrite scripts_seeded.
  destruct (scripts this "" 0) as [v|] eqn:E; simpl; [|discriminate].
  intros H. injection H as <-. cbn [ret_source].
  now rewrite (scripts_legacy this v E), append_assoc.
Qed.

End ScriptsOutcome.

(** ** The two builds side by side, and the mappings of a run *)

Section BuildsAndMappings.

Context {host : Host}.

Lemma domModule_registration (this : ProcessHtml) :
  exists call,
    source (domModule this) = registration register_require call
    /\ Legacy.domModule this = registration Legacy.register_require call.
Proof.
  unfold domModule, Legacy.domModule.
  set (minimized := minify _).
  destruct (truthy minimized); [|exists None; now split].
  destruct (query _ domPred).
  - exists (Some ("RegisterHtmlTemplate.register('" ++ escape_quotes minimized ++ "');")).
    cbn [source registration]. rewrite !append_assoc. now split.
  - exists (Some ("RegisterHtmlTemplate.toBody('" ++ escape_quotes minimized ++ "');")).
    cbn [source registration]. rewrite !append_assoc. now split.
Qed.

(** X9.  Without [ignoreLinksFromPartialMatches], whenever the loader of
    [src/index.js] returns, its code and the text of the earlier build are
    the same imports, the same registration call and the same script text:
    they differ in the package named by the [require] line and in nothing
    else. *)
Theorem builds_differ_by_require (loader : Loader) (text code : string)
        (map : option sourceMap.RawSourceMap) :
  let this := new_ProcessHtml text loader in
  or_empty (ignoreLinksFromPartialMatches (options this)) = [] ->
  entry loader text = Ok (code, map) ->
  exists call,
    code = Legacy.links this ++ registration register_require call ++ Legacy.scripts this
    /\ Legacy.entry loader text
       = Legacy.links this ++ registration Legacy.register_require call
         ++ Legacy.scripts this.
Proof.
  intros this Hopt. unfold entry, Legacy.entry, Legacy.process. fold this.
  unfold process. rewrite scripts_seeded.
  destruct (scripts this "" 0) as [v|] eqn:E; simpl; [|discriminate].
  intros H. injection H as <- _.
  destruct (domModule_registration this) as (call & H1 & H2). exists call.
  rewrite (scripts_legacy this v E), append_assoc, (links_legacy this Hopt), H1, H2.
  now split.
Qed.

(** X13.  A document without link and without script whose markup minifies
    to nothing gives the empty module and no map. *)
Theorem process_without_content (this : ProcessHtml) :
  queryAll (document_of this) linkPred = [] ->
  queryAll (document_of this) scriptsPred = [] ->
  minify (parse5_serialize (domModule_html (document_of this))) = "" ->
  process this = Ok {| ret_source := ""; ret_sourceMap := None |}.
Proof.
  intros Hl Hs Hm. unfold process, links, domModule, scripts.
  fold (document_of this). now rewrite Hl, Hs, Hm.
Qed.

End BuildsAndMappings.

(** ** Escaping and removal *)

(** X11.  In the escaped text every quote comes right after a backslash,
    and a text without quote is left as it is. *)
Theorem escape_quotes_escaped (s : string) :
  (forall pre post, escape_quotes s = pre ++ "'" ++ post -> exists pre', pre = pre' ++ "\")
  /\ (~ contains "'" s -> escape_quotes s = s).
Proof.
  split.
  - induction s as [|c s IH]; intros pre post H.
    + destruct pre; discriminate.
    + cbn [escape_quotes] in H. destruct (Ascii.eqb_spec c "'") as [->|Hne].
      * destruct pre as [|p0 [|p1 pre]]; cbn [append] in H.
        -- discriminate.
        -- injection H as <- _. now exists "".
        -- injection H as <- <- H. destruct (IH pre post H) as [pre' ->].
           now exists (String "\" (String "'" pre')).
      * destruct pre as [|p0 pre]; cbn [append] in H.
        -- injection H as H _. congruence.
        -- injection H as <- H. destruct (IH pre post H) as [pre' ->].
           now exists (String c pre').
  - induction s as [|c s IH]; intros Hno; [reflexivity|].
    cbn [escape_quotes]. destruct (Ascii.eqb_spec c "'") as [->|Hne].
    + exfalso. apply Hno. now exists "", s.
    + f_equal. apply IH. intros (pre & post & ->). apply Hno.
      now exists (String c pre), post.
Qed.

Section Removal.

Context {host : Host}.


End Removal.

(** ** [links] without options *)

Section DefaultOptions.

Context {host : Host}.

Lemma links_fold_without_options (this : ProcessHtml) (nodes : list node) (acc : Fragment) :
  or_empty (ignoreLinks (options this)) = [] ->
  or_empty (ignoreLinksFromPartialMatches (options this)) = [] ->
  or_empty (ignorePathReWrite (options this)) = [] ->
  fold_left (links_body this) nodes acc
  = {| source :=
         source acc
         ++ concat_texts
              (map (fun n =>
                      match getAttribute n "href" with
                      | Some href =>
                          if href =? "" then ""
                          else import_statement
                                 (osPath_join (osPath_dirname (currentFilePath this)) href)
                      | None => ""
                      end) nodes);
       lineCount :=
         lineCount acc
         + 2 * Z.of_nat (List.length
                           (filter (fun n => truthy (or_else (getAttribute n "href") ""))
                                   nodes)) |}.
Proof.
  intros H1 H2 H3. revert acc. induction nodes as [|n nodes IH]; intros acc.
  - cbn [fold_left map concat_texts fold_right filter List.length].
    rewrite append_empty_r. destruct acc as [text count]. cbn [source lineCount].
    f_equal. lia.
  - cbn [fold_left map concat_texts fold_right filter]. rewrite IH.
    unfold links_body, link_path. rewrite H1, H2, H3, or_else_empty.
    destruct (getAttribute n "href") as [href|].
    + unfold truthy. destruct (href =? ""); cbn [negb].
      * cbn [append]. reflexivity.
      * unfold JS.length.
        cbn [filter List.length Z.of_nat Z.eqb Z.ltb Z.compare andb
             array_indexOf array_indexOf_from source lineCount].
        rewrite append_assoc. f_equal. lia.
    + cbn [String.eqb negb append]. reflexivity.
Qed.

(** X14.  With none of the three options set, [links] imports every link
    that has a non-empty [href], from the directory of [currentFilePath]
    joined with the [href], in document order, and skips the others; it
    counts 2 lines for each link it imports. *)
Theorem links_without_options (this : ProcessHtml) :
  or_empty (ignoreLinks (options this)) = [] ->
  or_empty (ignoreLinksFromPartialMatches (options this)) = [] ->
  or_empty (ignorePathReWrite (options this)) = [] ->
  source (links this)
  = concat_texts
      (map (fun n =>
              match getAttribute n "href" with
              | Some href =>
                  if href =? "" then ""
                  else import_statement
                         (osPath_join (osPath_dirname (currentFilePath this)) href)
              | None => ""
              end)
           (queryAll (document_of this) linkPred))
  /\ lineCount (links this)
     = 2 * Z.of_nat (List.length
                       (filter (fun n => truthy (or_else (getAttribute n "href") ""))
                               (queryAll (document_of this) linkPred))).
Proof.
  intros H1 H2 H3. unfold links. fold (document_of this).
  rewrite (links_fold_without_options this _ _ H1 H2 H3). cbn [source lineCount].
  split; [reflexivity | lia].
Qed.

End DefaultOptions.

(** ** The further properties on the worked examples *)

(** X3, on the component of the example. *)
Lemma process_seed_lines_witness :
  line_feeds
    (source (@links (Fixture.host Fixture.component_doc)
               (Fixture.this_at "/p/f.html" no_options))
     ++ source (@domModule (Fixture.host Fixture.component_doc)
                  (Fixture.this_at "/p/f.html" no_options)))
  = lineCount (@links (Fixture.host Fixture.component_doc)
                 (Fixture.this_at "/p/f.html" no_options))
    + lineCount (@domModule (Fixture.host Fixture.component_doc)
                   (Fixture.this_at "/p/f.html" no_options)).
Proof.
  apply (@process_seed_lines (Fixture.host Fixture.component_doc)
           (Fixture.this_at "/p/f.html" no_options)).
  - intros n href Hin Hattr. destruct Hin as [<-|[]].
    injection Hattr as <-. reflexivity.
  - reflexivity.
Defined.

(** X4, on the script of the example, from an empty module. *)
Lemma scripts_offset_tracks_witness :
  exists st',
    forEach (@scripts_body (Fixture.host Fixture.component_doc)
               (Fixture.this_at "/p/f.html" no_options))
            [Fixture.var_script] Fixture.fresh = Ok st'
    /\ offset_tracks st'.
Proof.
  eexists. split; [reflexivity|].
  eapply (@scripts_offset_tracks (Fixture.host Fixture.component_doc)
            (Fixture.this_at "/p/f.html" no_options) [Fixture.var_script] Fixture.fresh).
  - reflexivity.
  - reflexivity.
  - intros n src [<-|[]] (s & Hs & _). discriminate.
  - intros n el s e [<-|[]] _ Hel Hs He.
    injection Hel as <-. injection Hs as <-. injection He as <-. reflexivity.
Defined.

(** X8, on the component of the example. *)
Lemma process_text_witness :
  exists r,
    @process (Fixture.host Fixture.component_doc) (Fixture.this_at "/p/f.html" no_options)
    = Ok r
    /\ ret_source r
       = source (@links (Fixture.host Fixture.component_doc)
                   (Fixture.this_at "/p/f.html" no_options))
         ++ source (@domModule (Fixture.host Fixture.component_doc)
                      (Fixture.this_at "/p/f.html" no_options))
         ++ @Legacy.scripts (Fixture.host Fixture.component_doc)
              (Fixture.this_at "/p/f.html" no_options).
Proof.
  eexists. split; [reflexivity|].
  apply (@process_text (Fixture.host Fixture.component_doc)
           (Fixture.this_at "/p/f.html" no_options)).
  reflexivity.
Defined.

(** X9, on the component of the example, loaded without options. *)
Lemma builds_differ_by_require_witness :
  exists code call,
    (exists map,
        @entry (Fixture.host Fixture.component_doc) (Fixture.webpack "/p/f.html") "<html>"
        = Ok (code, map))
    /\ code
       = @Legacy.links (Fixture.host Fixture.component_doc)
           (new_ProcessHtml "<html>" (Fixture.webpack "/p/f.html"))
         ++ registration register_require call
         ++ @Legacy.scripts (Fixture.host Fixture.component_doc)
              (new_ProcessHtml "<html>" (Fixture.webpack "/p/f.html"))
    /\ @Legacy.entry (Fixture.host Fixture.component_doc) (Fixture.webpack "/p/f.html")
         "<html>"
       = @Legacy.links (Fixture.host Fixture.component_doc)
           (new_ProcessHtml "<html>" (Fixture.webpack "/p/f.html"))
         ++ registration Legacy.register_require call
         ++ @Legacy.scripts (Fixture.host Fixture.component_doc)
              (new_ProcessHtml "<html>" (Fixture.webpack "/p/f.html")).
Proof.
  destruct (@entry (Fixture.host Fixture.component_doc) (Fixture.webpack "/p/f.html")
              "<html>") as [[code map]|] eqn:E; [|discriminate].
  destruct (@builds_differ_by_require (Fixture.host Fixture.component_doc)
              (Fixture.webpack "/p/f.html") "<html>" code map eq_refl E)
    as (call & H1 & H2).
  exists code, call. split; [now exists map | now split].
Defined.

(** X13, on the empty document. *)
Lemma process_without_content_witness :
  @process (Fixture.host []) (Fixture.this_at "/p/f.html" no_options)
  = Ok {| ret_source := ""; ret_sourceMap := None |}.
Proof.
  exact (@process_without_content (Fixture.host [])
           (Fixture.this_at "/p/f.html" no_options) eq_refl eq_refl eq_refl).
Defined.

(** X14, on the component of the example. *)
Lemma links_without_options_witness :
  source (@links (Fixture.host Fixture.component_doc)
            (Fixture.this_at "/p/f.html" no_options))
  = nl ++ "import '/p/a.html';" ++ nl
  /\ lineCount (@links (Fixture.host Fixture.component_doc)
                  (Fixture.this_at "/p/f.html" no_options))
     = 2.
Proof.
  exact (@links_without_options (Fixture.host Fixture.component_doc)
           (Fixture.this_at "/p/f.html" no_options) eq_refl eq_refl eq_refl).
Defined.
